(** * Now Playing plugin: a shallow embedding of the three backends

    The development follows [now_playing.cpp] and [now_playing_macos.mm]:
    the common [MediaData] record and error taxonomy, the DBus protocol
    primitives and the MPRIS walk ([now_playing::dbus]), the Windows NPSM
    negotiation ([now_playing::npsm]) and the macOS strategies
    ([now_playing::macos]).  Every native call is a field of a "world"
    record, so that a backend is a function of the native replies. *)

From Stdlib Require Import String Ascii List ZArith Bool Lia Permutation.
Import ListNotations.

Local Open Scope list_scope.
Local Open Scope string_scope.

(** ** Common data model ([now_playing_types.hpp], [Drac++/Utils/Error.hpp]) *)

(** The error codes the sources name through [using enum DracErrorCode]. *)
Inductive DracErrorCode : Type :=
| ApiUnavailable
| InternalError
| InvalidArgument
| IoError
| NotFound
| NotSupported
| OutOfMemory
| ParseError
| PlatformSpecific.

Record DracError : Type := mkDracError {
  code : DracErrorCode;
  message : string
}.

(** [Result<T>] is [std::expected<T, DracError>]. *)
Inductive Result (A : Type) : Type :=
| Ok (value : A)
| Err (error : DracError).
Arguments Ok {A} value.
Arguments Err {A} error.

(** The [ERR] macro returns an error from the enclosing function. *)
Definition ERR {A : Type} (c : DracErrorCode) (msg : string) : Result A :=
  Err (mkDracError c msg).

(** The [TRY] macro: unwrap a result or return its error. *)
Definition TRY {A B : Type} (r : Result A) (k : A -> Result B) : Result B :=
  match r with
  | Ok v => k v
  | Err e => Err e
  end.

Notation "'let?' x ':=' r 'in' k" := (TRY r (fun x => k))
  (at level 10, x name, r at level 100, k at level 200).

Definition Option := option.

Record MediaData : Type := mkMediaData {
  title : Option string;
  artist : Option string;
  album : Option string;
  playerName : Option string
}.

(** [MediaData data;] default construction: every field is [None]. *)
Definition MediaData_default : MediaData := mkMediaData None None None None.

Definition set_title (d : MediaData) (v : Option string) : MediaData :=
  mkMediaData v (artist d) (album d) (playerName d).
Definition set_artist (d : MediaData) (v : Option string) : MediaData :=
  mkMediaData (title d) v (album d) (playerName d).
Definition set_album (d : MediaData) (v : Option string) : MediaData :=
  mkMediaData (title d) (artist d) v (playerName d).
Definition set_playerName (d : MediaData) (v : Option string) : MediaData :=
  mkMediaData (title d) (artist d) (album d) v.

(** ** [std::string] operations used by the sources *)

Definition empty (s : string) : bool :=
  match s with
  | EmptyString => true
  | String _ _ => false
  end.

(** [s.starts_with(p)]. *)
Fixpoint starts_with (s p : string) {struct p} : bool :=
  match p with
  | EmptyString => true
  | String c p' =>
      match s with
      | EmptyString => false
      | String d s' => if Ascii.eqb c d then starts_with s' p' else false
      end
  end.

(** [s.substr(pos)]: the characters from [pos] to the end.  The sources call
    it only under [starts_with], hence with [pos <= s.size()], where
    [std::string::substr] does not throw. *)
Fixpoint substr (s : string) (pos : nat) {struct pos} : string :=
  match pos with
  | O => s
  | S n =>
      match s with
      | EmptyString => EmptyString
      | String _ s' => substr s' n
      end
  end.

(** Substring search, for statements about what a message mentions. *)
Fixpoint contains (s sub : string) : bool :=
  if starts_with s sub then true
  else match s with
       | EmptyString => false
       | String _ s' => contains s' sub
       end.

(** ** MPRIS over DBus ([namespace now_playing::dbus]) *)

Module dbus.

(** *** The wire values a message carries

    Type codes are the ones of [dbus-protocol.h] (the ASCII code of the
    signature character). *)
Definition DBUS_TYPE_INVALID : Z := 0.
Definition DBUS_TYPE_STRING : Z := 115.
Definition DBUS_TYPE_ARRAY : Z := 97.
Definition DBUS_TYPE_VARIANT : Z := 118.
Definition DBUS_TYPE_STRUCT : Z := 114.
Definition DBUS_TYPE_DICT_ENTRY : Z := 101.
Definition DBUS_BUS_SESSION : Z := 0.

(** The basic types other than [STRING]. *)
Inductive BasicKind : Type :=
| KByte | KBoolean | KInt16 | KUInt16 | KInt32 | KUInt32
| KInt64 | KUInt64 | KDouble | KObjectPath | KSignature | KUnixFd.

Definition basic_code (k : BasicKind) : Z :=
  match k with
  | KByte => 121 | KBoolean => 98 | KInt16 => 110 | KUInt16 => 113
  | KInt32 => 105 | KUInt32 => 117 | KInt64 => 120 | KUInt64 => 116
  | KDouble => 100 | KObjectPath => 111 | KSignature => 103
  | KUnixFd => 104
  end.

(** One argument of a message, as a tree.  An array carries its element
    type (it has one even when empty); a variant wraps exactly one value;
    a dict entry is kept as the list of its fields so that an entry that
    lacks its value can be written down. Strings hold no NUL (libdbus
    validates that), so [strlen] is the length. *)
#[warnings="-register-all"] Inductive DBusArg : Type :=
| DBasic (k : BasicKind)
| DString (s : string)
| DArray (element_type : Z) (items : list DBusArg)
| DVariant (v : DBusArg)
| DStruct (fields : list DBusArg)
| DDictEntry (fields : list DBusArg).

Definition arg_type (a : DBusArg) : Z :=
  match a with
  | DBasic k => basic_code k
  | DString _ => DBUS_TYPE_STRING
  | DArray _ _ => DBUS_TYPE_ARRAY
  | DVariant _ => DBUS_TYPE_VARIANT
  | DStruct _ => DBUS_TYPE_STRUCT
  | DDictEntry _ => DBUS_TYPE_DICT_ENTRY
  end.

(** A [DBusMessage]: the header fields of a method call and the
    arguments; a reply only uses [msg_args]. *)
Record DBusMessage : Type := mkDBusMessage {
  msg_destination : string;
  msg_path : string;
  msg_interface : string;
  msg_member : string;
  msg_args : list DBusArg
}.

(** *** libdbus, as far as the wrappers call it

    A [DBusMessageIter] is the list of the values left at its level, the
    current one first. *)
Definition DBusMessageIter : Type := list DBusArg.

Definition dbus_message_iter_get_arg_type (it : DBusMessageIter) : Z :=
  match it with
  | [] => DBUS_TYPE_INVALID
  | a :: _ => arg_type a
  end.

Definition dbus_message_iter_get_element_type (it : DBusMessageIter) : Z :=
  match it with
  | DArray t _ :: _ => t
  | _ => DBUS_TYPE_INVALID
  end.

(** Moves to the next field; [false] when there is none after the move. *)
Definition dbus_message_iter_next (it : DBusMessageIter)
  : bool * DBusMessageIter :=
  match it with
  | [] => (false, [])
  | _ :: rest => (match rest with [] => false | _ :: _ => true end, rest)
  end.

(** The sub-iterator over the contents of the current container.  The
    sources recurse only after testing the type of the current value. *)
Definition dbus_message_iter_recurse (it : DBusMessageIter)
  : DBusMessageIter :=
  match it with
  | DArray _ items :: _ => items
  | DVariant v :: _ => [v]
  | DStruct fields :: _ => fields
  | DDictEntry fields :: _ => fields
  | _ => []
  end.

(** [dbus_message_iter_init]: [false] when the message has no arguments. *)
Definition dbus_message_iter_init (m : DBusMessage)
  : bool * DBusMessageIter :=
  (match msg_args m with [] => false | _ :: _ => true end, msg_args m).

Inductive BusGetOutcome : Type :=
| BusGetError (msg : string)
| BusGetNull
| BusGetConnection.

Inductive SendOutcome : Type :=
| SendError (msg : string)
| SendNull
| SendReply (reply : DBusMessage).

(** The native side of one fetch: what each libdbus entry point answers. *)
Record World : Type := mkWorld {
  dbus_bus_get : Z -> BusGetOutcome;
  dbus_message_new_method_call : string -> string -> string -> string -> bool;
  dbus_message_iter_append_basic : DBusMessage -> string -> bool;
  dbus_connection_send_with_reply_and_block : DBusMessage -> Z -> SendOutcome
}.

(** *** class MessageIter *)

Record MessageIter : Type := mkMessageIter {
  m_iter : DBusMessageIter;
  m_isValid : bool
}.

Definition isValid (it : MessageIter) : bool := m_isValid it.

Definition getArgType (it : MessageIter) : Z :=
  if m_isValid it then dbus_message_iter_get_arg_type (m_iter it)
  else DBUS_TYPE_INVALID.

Definition getElementType (it : MessageIter) : Z :=
  if m_isValid it then dbus_message_iter_get_element_type (m_iter it)
  else DBUS_TYPE_INVALID.

(** [next] advances the cursor in place; the moved iterator is returned
    next to the answer. *)
Definition next (it : MessageIter) : bool * MessageIter :=
  if m_isValid it then
    let (moved, it') := dbus_message_iter_next (m_iter it) in
    (moved, mkMessageIter it' true)
  else (false, it).

Definition recurse (it : MessageIter) : MessageIter :=
  if negb (m_isValid it) then mkMessageIter [] false
  else mkMessageIter (dbus_message_iter_recurse (m_iter it)) true.

Definition getString (it : MessageIter) : Option string :=
  if m_isValid it && (getArgType it =? DBUS_TYPE_STRING)%Z then
    match m_iter it with
    | DString strPtr :: _ =>
        if (0 <? String.length strPtr)%nat then Some strPtr else None
    | _ => None
    end
  else None.

(** *** class Message *)

Record Message : Type := mkMessage { m_msg : option DBusMessage }.

Definition iterInit (m : Message) : MessageIter :=
  match m_msg m with
  | None => mkMessageIter [] false
  | Some raw =>
      let (valid, iter) := dbus_message_iter_init raw in
      mkMessageIter iter valid
  end.

(** [appendArgInternal] for a [const char*]: one string appended at the
    end of the message, unless libdbus runs out of memory. *)
Definition appendArgInternal (w : World) (raw : DBusMessage) (arg : string)
  : bool * DBusMessage :=
  if dbus_message_iter_append_basic w raw arg then
    (true, mkDBusMessage (msg_destination raw) (msg_path raw)
             (msg_interface raw) (msg_member raw)
             (msg_args raw ++ [DString arg])%list)
  else (false, raw).

(** The fold [(success = success && appendArgInternal(...)), ...]. *)
Fixpoint appendArgs_fold (w : World) (success : bool) (raw : DBusMessage)
         (args : list string) : bool * DBusMessage :=
  match args with
  | [] => (success, raw)
  | arg :: rest =>
      if success then
        let (ok, raw') := appendArgInternal w raw arg in
        appendArgs_fold w ok raw' rest
      else appendArgs_fold w false raw rest
  end.

Definition appendArgs (w : World) (m : Message) (args : list string)
  : bool * Message :=
  match m_msg m with
  | None => (false, m)
  | Some raw =>
      let (success, raw') := appendArgs_fold w true raw args in
      (success, mkMessage (Some raw'))
  end.

Definition newMethodCall (w : World)
           (destination path interface method : string) : Result Message :=
  if dbus_message_new_method_call w destination path interface method then
    Ok (mkMessage (Some (mkDBusMessage destination path interface method [])))
  else ERR OutOfMemory "dbus_message_new_method_call failed".

(** *** class Connection *)

Record Connection : Type := mkConnection { m_conn : bool }.

Definition sendWithReplyAndBlock (w : World) (c : Connection)
           (message : Message) (timeout_milliseconds : Z) : Result Message :=
  match m_conn c, m_msg message with
  | true, Some raw =>
      match dbus_connection_send_with_reply_and_block w raw
              timeout_milliseconds with
      | SendError msg => ERR PlatformSpecific ("DBus error: " ++ msg)
      | SendNull => ERR ApiUnavailable "DBus returned null without error"
      | SendReply rawReply => Ok (mkMessage (Some rawReply))
      end
  | _, _ => ERR InvalidArgument "Invalid connection or message"
  end.

Definition busGet (w : World) (bus_type : Z) : Result Connection :=
  match dbus_bus_get w bus_type with
  | BusGetError msg => ERR ApiUnavailable ("DBus bus_get failed: " ++ msg)
  | BusGetNull => ERR ApiUnavailable "dbus_bus_get returned null without error"
  | BusGetConnection => Ok (mkConnection true)
  end.

(** *** The MPRIS walk *)

Definition prefix : string := "org.mpris.MediaPlayer2.".

Definition extractPlayerName (busName : string) : string :=
  if starts_with busName prefix then substr busName (String.length prefix)
  else busName.

(** The discovery loop over the names array; [cur] is the cursor of
    [subIter], which is valid here. *)
Fixpoint findActivePlayer (cur : DBusMessageIter) : Option string :=
  match cur with
  | [] => None
  | a :: rest =>
      let subIter := mkMessageIter (a :: rest) true in
      if (getArgType subIter =? DBUS_TYPE_INVALID)%Z then None
      else
        let advance :=
          if fst (next subIter) then findActivePlayer rest else None in
        match getString subIter with
        | Some name => if starts_with name prefix then Some name else advance
        | None => advance
        end
  end.

(** What one well-shaped entry does to the record. *)
Definition applyEntry (key : string) (valueVariantIter : MessageIter)
           (data : MediaData) : MediaData :=
  if String.eqb key "xesam:title" then
    set_title data (getString valueVariantIter)
  else if String.eqb key "xesam:album" then
    set_album data (getString valueVariantIter)
  else if String.eqb key "xesam:artist" then
    if (getArgType valueVariantIter =? DBUS_TYPE_ARRAY)%Z
       && (getElementType valueVariantIter =? DBUS_TYPE_STRING)%Z then
      let artistArrayIter := recurse valueVariantIter in
      if isValid artistArrayIter then
        set_artist data (getString artistArrayIter)
      else data
    else data
  else data.

(** The metadata loop over the dictionary array; [cur] is the cursor of
    [dictIter], which is valid here. *)
Fixpoint metadataLoop (cur : DBusMessageIter) (data : MediaData)
  : MediaData :=
  match cur with
  | [] => data
  | a :: rest =>
      let dictIter := mkMessageIter (a :: rest) true in
      if negb (getArgType dictIter =? DBUS_TYPE_DICT_ENTRY)%Z then data
      else
        let advance (d : MediaData) :=
          if fst (next dictIter) then metadataLoop rest d else d in
        let entryIter := recurse dictIter in
        if negb (isValid entryIter) then advance data
        else
          match getString entryIter with
          | None => advance data
          | Some key =>
              let (moved, entryIter') := next entryIter in
              if negb moved
                 || negb (getArgType entryIter' =? DBUS_TYPE_VARIANT)%Z
              then advance data
              else
                let valueVariantIter := recurse entryIter' in
                if negb (isValid valueVariantIter) then advance data
                else advance (applyEntry key valueVariantIter data)
          end
  end.

(** The walk over the reply to [Properties.Get]. *)
Definition parseMetadata (reply : Message) (data : MediaData)
  : Result MediaData :=
  let propIter := iterInit reply in
  if negb (isValid propIter) then
    ERR ParseError "Properties.Get reply has no arguments"
  else if negb (getArgType propIter =? DBUS_TYPE_VARIANT)%Z then
    ERR ParseError "Properties.Get reply argument is not a variant"
  else
    let variantIter := recurse propIter in
    if negb (isValid variantIter) then
      ERR ParseError "Could not recurse into variant"
    else if negb (getArgType variantIter =? DBUS_TYPE_ARRAY)%Z
            || negb (getElementType variantIter =? DBUS_TYPE_DICT_ENTRY)%Z
    then ERR ParseError "Metadata is not a dictionary array"
    else
      let dictIter := recurse variantIter in
      if negb (isValid dictIter) then
        ERR ParseError "Could not recurse into metadata dictionary"
      else Ok (metadataLoop (m_iter dictIter) data).

(** Step 1 of the fetch: the block that computes [activePlayer]. *)
Definition discover (w : World) (connection : Connection)
  : Result (Option string) :=
  let? listNamesMsg :=
    newMethodCall w "org.freedesktop.DBus" "/org/freedesktop/DBus"
      "org.freedesktop.DBus" "ListNames" in
  let? listNamesReply := sendWithReplyAndBlock w connection listNamesMsg 100 in
  let iter := iterInit listNamesReply in
  if negb (isValid iter) || negb (getArgType iter =? DBUS_TYPE_ARRAY)%Z then
    ERR ParseError "Invalid DBus ListNames reply format: Expected array"
  else
    let subIter := recurse iter in
    if negb (isValid subIter) then
      ERR ParseError
        "Invalid DBus ListNames reply format: Could not recurse into array"
    else Ok (findActivePlayer (m_iter subIter)).

(** Step 2 of the fetch: the request to the selected player and the walk
    over its reply. *)
Definition retrieve (w : World) (connection : Connection)
           (activePlayer : string) : Result MediaData :=
  let? msg :=
    newMethodCall w activePlayer "/org/mpris/MediaPlayer2"
      "org.freedesktop.DBus.Properties" "Get" in
  let (appended, msg') :=
    appendArgs w msg ["org.mpris.MediaPlayer2.Player"; "Metadata"] in
  if negb appended then
    ERR InternalError "Failed to append arguments to Properties.Get message"
  else
    let? reply := sendWithReplyAndBlock w connection msg' 100 in
    let data :=
      set_playerName MediaData_default
        (Some (extractPlayerName activePlayer)) in
    parseMetadata reply data.

Definition fetchNowPlaying (w : World) : Result MediaData :=
  let? connection := busGet w DBUS_BUS_SESSION in
  let? activePlayer := discover w connection in
  match activePlayer with
  | None => ERR NotFound "No active MPRIS players found"
  | Some player => retrieve w connection player
  end.

End dbus.

(** ** Windows NPSM ([namespace now_playing::npsm]) *)

Module npsm.

(** [HRESULT] is a signed 32-bit status; [FAILED] tests its sign. *)
Definition HRESULT : Type := Z.
Definition FAILED (hr : HRESULT) : bool := (hr <? 0)%Z.
Definition SUCCEEDED (hr : HRESULT) : bool := (0 <=? hr)%Z.
Definition S_OK : HRESULT := 0%Z.
Definition E_FAIL : HRESULT := (-2147467259)%Z.
Definition E_NOINTERFACE : HRESULT := (-2147467262)%Z.

(** [static_cast<u32>] and [static_cast<i32>]. *)
Definition to_u32 (n : Z) : Z := (n mod 4294967296)%Z.
Definition to_i32 (n : Z) : Z :=
  ((n + 2147483648) mod 4294967296 - 2147483648)%Z.

Definition hex_digit (d : Z) : ascii :=
  if (d <? 10)%Z then ascii_of_nat (Z.to_nat (48 + d))
  else ascii_of_nat (Z.to_nat (55 + d)).

(** [std::format("{:08X}", n)] for a [u32]: eight upper-case digits. *)
Definition format_08X (n : Z) : string :=
  fold_right
    (fun i acc => String (hex_digit ((n / 16 ^ i) mod 16)%Z) acc) ""
    [7; 6; 5; 4; 3; 2; 1; 0]%Z.

Definition dec_digit (d : Z) : ascii := ascii_of_nat (Z.to_nat (48 + d)).

Fixpoint format_dec_aux (fuel : nat) (n : Z) (acc : string) : string :=
  match fuel with
  | O => acc
  | S fuel' =>
      let acc' := String (dec_digit (n mod 10)%Z) acc in
      if (n <? 10)%Z then acc' else format_dec_aux fuel' (n / 10)%Z acc'
  end.

(** [std::format("{}", n)] for an unsigned 64-bit value (twenty digits
    at most). *)
Definition format_dec (n : Z) : string := format_dec_aux 20 n "".

(** A wide string: its UTF-16 code units, terminator excluded. *)
Definition WString : Type := list Z.

Record GUID : Type := mkGUID {
  Data1 : Z;
  Data2 : Z;
  Data3 : Z;
  Data4 : list Z
}.

Record PROPERTYKEY : Type := mkPROPERTYKEY { fmtid : GUID; pid : Z }.

Definition PKEY_Title : PROPERTYKEY :=
  mkPROPERTYKEY
    (mkGUID 0xF29F85E0 0x4FF9 0x1068
       [0xAB; 0x91; 0x08; 0x00; 0x2B; 0x27; 0xB3; 0xD9]%Z) 2.

Definition PKEY_Music_Artist : PROPERTYKEY :=
  mkPROPERTYKEY
    (mkGUID 0x56A3372E 0xCE9C 0x11D2
       [0x9F; 0x0E; 0x00; 0x60; 0x97; 0xC6; 0x86; 0xF6]%Z) 2.

Definition PKEY_Music_AlbumTitle : PROPERTYKEY :=
  mkPROPERTYKEY
    (mkGUID 0x56A3372E 0xCE9C 0x11D2
       [0x9F; 0x0E; 0x00; 0x60; 0x97; 0xC6; 0x86; 0xF6]%Z) 4.

Definition VT_EMPTY : Z := 0.
Definition VT_LPWSTR : Z := 31.

(** A [PROPVARIANT] as the code reads it: the tag and the [pwszVal]
    member, a nullable pointer to a terminated wide string. *)
Record PROPVARIANT : Type := mkPROPVARIANT {
  vt : Z;
  pwszVal : option WString
}.

(** [IPropertyStore::GetValue]: the status and what it leaves in [pVar]. *)
Record IPropertyStore : Type := mkIPropertyStore {
  GetValue : PROPERTYKEY -> HRESULT * PROPVARIANT
}.

(** What [WideCharToMultiByte] answers: its return value, the bytes it
    wrote to the buffer and the thread's last error afterwards. *)
Record WideCharAnswer : Type := mkWideCharAnswer {
  wc_return : Z;
  wc_written : string;
  wc_last_error : Z
}.

(** The native side of one fetch.  An out-parameter that comes back as a
    COM pointer is [true] when non-null; [get_Count] gives the value it
    stored, if it stored one. *)
Record World : Type := mkWorld {
  CoCreateInstance : HRESULT;
  get_Count : HRESULT * option Z;
  get_CurrentSession : HRESULT * bool;
  As_INowPlayingSession : HRESULT;
  ActivateMediaPlaybackDataSource : HRESULT * bool;
  As_IMediaPlaybackDataSource2 : HRESULT;
  DataSource2_GetMediaObjectInfo : HRESULT * option IPropertyStore;
  As_IMediaPlaybackDataSource : HRESULT;
  DataSource_GetMediaObjectInfo : HRESULT * option IPropertyStore;
  (** [WideCharToMultiByte(CP_UTF8, 0, wstr, cch, buf, cb, 0, 0)] by
      [wstr], [cch] and [cb]; the buffer is null exactly when [cb] is 0. *)
  WideCharToMultiByte : WString -> Z -> Z -> WideCharAnswer
}.

(** The native calls a conversion makes, in order. *)
Inductive NativeCall : Type :=
| CallWideCharToMultiByte (wstr : WString) (cchWideChar cbMultiByte : Z).

(** [String(n, '\0')]. *)
Fixpoint nul_string (n : nat) : string :=
  match n with
  | O => ""
  | S n' => String zero (nul_string n')
  end.

(** The buffer after the callee wrote [out] at its start; its size does
    not change. *)
Fixpoint write_buffer (buf out : string) {struct buf} : string :=
  match buf with
  | EmptyString => EmptyString
  | String b buf' =>
      match out with
      | EmptyString => String b buf'
      | String o out' => String o (write_buffer buf' out')
      end
  end.

(** [ConvertWStringToUTF8], with the trace of its native calls.
    [WideCharToMultiByte] returns no negative count, so the cast of
    [sizeNeeded] to [usize] is its value. *)
Definition ConvertWStringToUTF8_traced (w : World) (wstr : WString)
  : Result string * list NativeCall :=
  match wstr with
  | [] => (Ok "", [])
  | _ :: _ =>
      let cch := to_i32 (Z.of_nat (List.length wstr)) in
      let first := WideCharToMultiByte w wstr cch 0 in
      let sizeNeeded := wc_return first in
      if (sizeNeeded =? 0)%Z then
        (ERR InternalError
           ("Failed to get buffer size for UTF-8 conversion. Error code: "
            ++ format_dec (wc_last_error first)),
         [CallWideCharToMultiByte wstr cch 0])
      else
        let result := nul_string (Z.to_nat sizeNeeded) in
        let second := WideCharToMultiByte w wstr cch sizeNeeded in
        let bytesConverted := wc_return second in
        let calls := [CallWideCharToMultiByte wstr cch 0;
                      CallWideCharToMultiByte wstr cch sizeNeeded] in
        if (bytesConverted =? 0)%Z then
          (ERR InternalError
             ("Failed to convert wide string to UTF-8. Error code: "
              ++ format_dec (wc_last_error second)),
           calls)
        else (Ok (write_buffer result (wc_written second)), calls)
  end.

Definition ConvertWStringToUTF8 (w : World) (wstr : WString)
  : Result string :=
  fst (ConvertWStringToUTF8_traced w wstr).

(** One of the three reads: [Some] of the converted text when
    [GetValue] succeeds with a non-null [VT_LPWSTR] that converts to a
    non-empty string. *)
Definition readProperty (w : World) (propStore : IPropertyStore)
           (key : PROPERTYKEY) : Option string :=
  let (hr, pVar) := GetValue propStore key in
  if SUCCEEDED hr && (vt pVar =? VT_LPWSTR)%Z then
    match pwszVal pVar with
    | Some wstr =>
        match ConvertWStringToUTF8 w wstr with
        | Ok str => if negb (empty str) then Some str else None
        | Err _ => None
        end
    | None => None
    end
  else None.

(** A guarded assignment of one field: the field is written only when
    the read gave a string. *)
Definition assign_if (set : MediaData -> Option string -> MediaData)
           (data : MediaData) (v : Option string) : MediaData :=
  match v with
  | Some s => set data (Some s)
  | None => data
  end.

(** The part of [FetchNowPlaying] after the property store is there. *)
Definition readMediaData (w : World) (propStore : IPropertyStore)
  : MediaData :=
  let data := MediaData_default in
  let data := assign_if set_title data (readProperty w propStore PKEY_Title) in
  let data :=
    assign_if set_artist data (readProperty w propStore PKEY_Music_Artist) in
  let data :=
    assign_if set_album data
      (readProperty w propStore PKEY_Music_AlbumTitle) in
  data.

(** The negotiation up to the property store; on success the last
    [HRESULT] is dropped with it. *)
Definition getPropertyStore (w : World) : Result IPropertyStore :=
  let result := CoCreateInstance w in
  if FAILED result then
    ERR ApiUnavailable
      ("Failed to create NowPlayingSessionManager (HRESULT: 0x"
       ++ format_08X (to_u32 result) ++ ")")
  else
    let sessionCount :=
      match snd (get_Count w) with Some n => n | None => 0%Z end in
    let (result, sessionUnknown) := get_CurrentSession w in
    if FAILED result || negb sessionUnknown then
      ERR NotFound
        ("No media session found (HRESULT: 0x" ++ format_08X (to_u32 result)
         ++ ", sessionCount=" ++ format_dec sessionCount ++ ")")
    else
      let result := As_INowPlayingSession w in
      if FAILED result then
        ERR ApiUnavailable
          ("Failed to get INowPlayingSession interface (HRESULT: 0x"
           ++ format_08X (to_u32 result) ++ ")")
      else
        let (result, dataSourceUnknown) :=
          ActivateMediaPlaybackDataSource w in
        if FAILED result || negb dataSourceUnknown then
          ERR ApiUnavailable
            ("Failed to activate MediaPlaybackDataSource (HRESULT: 0x"
             ++ format_08X (to_u32 result) ++ ")")
        else
          let finish (answer : HRESULT * option IPropertyStore) :=
            match answer with
            | (result, Some propStore) =>
                if FAILED result then
                  ERR ApiUnavailable "Failed to get media object info"
                else Ok propStore
            | (_, None) => ERR ApiUnavailable "Failed to get media object info"
            end in
          let result := As_IMediaPlaybackDataSource2 w in
          if SUCCEEDED result then finish (DataSource2_GetMediaObjectInfo w)
          else
            let result := As_IMediaPlaybackDataSource w in
            if FAILED result then
              ERR ApiUnavailable
                ("Failed to get IMediaPlaybackDataSource interface (HRESULT: 0x"
                 ++ format_08X (to_u32 result) ++ ")")
            else finish (DataSource_GetMediaObjectInfo w).

Definition FetchNowPlaying (w : World) : Result MediaData :=
  let? propStore := getPropertyStore w in
  Ok (readMediaData w propStore).

End npsm.

(** ** macOS ([namespace now_playing::macos]) *)

Module macos.

(** The record [glz::read] fills from the helper's output. *)
Record MediaControlOutput : Type := mkMediaControlOutput {
  mc_title : string;
  mc_artist : string;
  mc_album : string;
  mc_playing : bool
}.

(** An [NSDictionary] with [NSString] values, by its entries. *)
Definition NSDictionary : Type := list (string * string).

Fixpoint objectForKey (information : NSDictionary) (key : string)
  : option string :=
  match information with
  | [] => None
  | (k, v) :: rest => if String.eqb k key then Some v
                      else objectForKey rest key
  end.

(** The native side of one fetch.  [popen] gives everything the [fgets]
    loop collects, or [None] when the pipe cannot be opened; [glz_read]
    is the JSON reader with unknown keys allowed, [None] on an error;
    [MRMediaRemoteGetNowPlayingInfo] gives what the handler receives,
    [None] when the handler is never called. *)
Record World : Type := mkWorld {
  operatingSystemVersion : Z * Z;
  access_X_OK : string -> bool;
  popen : string -> option string;
  glz_read : string -> option MediaControlOutput;
  CFURLCreateWithFileSystemPath : bool;
  CFBundleCreate : bool;
  CFBundleGetFunctionPointerForName : bool;
  MRMediaRemoteGetNowPlayingInfo : option (option NSDictionary)
}.

Definition paths : list string :=
  ["/opt/homebrew/bin/media-control";
   "/usr/local/bin/media-control";
   "/usr/bin/media-control"].

Definition isMediaControlAvailable (w : World) : bool :=
  existsb (access_X_OK w) paths.

Definition getMediaControlPath (w : World) : Option string :=
  find (access_X_OK w) paths.

Definition newline : string := String (ascii_of_nat 10) "".

Definition fetchViaMediaControl (w : World) : Result MediaData :=
  match getMediaControlPath w with
  | None =>
      ERR ApiUnavailable
        "media-control CLI not found. Install via: brew install media-control"
  | Some path =>
      let command := path ++ " get 2>/dev/null" in
      match popen w command with
      | None => ERR IoError "Failed to execute media-control"
      | Some output =>
          if empty output || String.eqb output ("null" ++ newline)
             || String.eqb output "null" then
            ERR NotFound "No media is currently playing"
          else
            match glz_read w output with
            | None => ERR ParseError "Failed to parse media-control output"
            | Some parsed =>
                if empty (mc_title parsed) then
                  ERR NotFound "No media is currently playing"
                else
                  let data := MediaData_default in
                  let data := set_title data (Some (mc_title parsed)) in
                  let data :=
                    if negb (empty (mc_artist parsed)) then
                      set_artist data (Some (mc_artist parsed))
                    else data in
                  let data :=
                    if negb (empty (mc_album parsed)) then
                      set_album data (Some (mc_album parsed))
                    else data in
                  Ok data
            end
      end
  end.

(** The handler block of [fetchViaNativeApi]. *)
Definition handler (information : option NSDictionary) : Result MediaData :=
  match information with
  | None => ERR NotFound "No media is currently playing"
  | Some info =>
      let data := MediaData_default in
      let titleNS := objectForKey info "kMRMediaRemoteNowPlayingInfoTitle" in
      let artistNS := objectForKey info "kMRMediaRemoteNowPlayingInfoArtist" in
      let albumNS := objectForKey info "kMRMediaRemoteNowPlayingInfoAlbum" in
      let data :=
        match titleNS with Some s => set_title data (Some s) | None => data end in
      let data :=
        match artistNS with Some s => set_artist data (Some s) | None => data end in
      let data :=
        match albumNS with Some s => set_album data (Some s) | None => data end in
      match title data with
      | None => ERR NotFound "No media is currently playing"
      | Some _ => Ok data
      end
  end.

(** [fetchViaNativeApi]; [None] when the wait on the semaphore never
    ends because the handler is never called. *)
Definition fetchViaNativeApi (w : World) : option (Result MediaData) :=
  if negb (CFURLCreateWithFileSystemPath w) then
    Some (ERR NotFound "Failed to create CFURL for MediaRemote.framework")
  else if negb (CFBundleCreate w) then
    Some (ERR ApiUnavailable
            "Failed to create bundle for MediaRemote.framework")
  else if negb (CFBundleGetFunctionPointerForName w) then
    Some (ERR ApiUnavailable
            "Failed to get MRMediaRemoteGetNowPlayingInfo function pointer")
  else
    match MRMediaRemoteGetNowPlayingInfo w with
    | None => None
    | Some information => Some (handler information)
    end.

Definition isMediaRemoteRestricted (w : World) : bool :=
  let (majorVersion, minorVersion) := operatingSystemVersion w in
  if (15 <? majorVersion)%Z then true
  else if (majorVersion =? 15)%Z && (4 <=? minorVersion)%Z then true
  else false.

Definition fetchNowPlaying (w : World) : option (Result MediaData) :=
  if isMediaRemoteRestricted w then
    if isMediaControlAvailable w then Some (fetchViaMediaControl w)
    else
      Some (ERR ApiUnavailable
              "Now Playing requires 'media-control' on macOS 15.4+. Install via: brew install media-control")
  else fetchViaNativeApi w.

End macos.

(** ** Sample native worlds and the vocabulary of the statements *)

Module samples.

(** The two requests the DBus backend sends. *)
Definition listNamesCall : dbus.DBusMessage :=
  dbus.mkDBusMessage "org.freedesktop.DBus" "/org/freedesktop/DBus"
    "org.freedesktop.DBus" "ListNames" [].

Definition getMetadataCall (player : string) : dbus.DBusMessage :=
  dbus.mkDBusMessage player "/org/mpris/MediaPlayer2"
    "org.freedesktop.DBus.Properties" "Get"
    [dbus.DString "org.mpris.MediaPlayer2.Player"; dbus.DString "Metadata"].

Definition reply (args : list dbus.DBusArg) : dbus.DBusMessage :=
  dbus.mkDBusMessage "" "" "" "" args.

Definition namesReply (names : list string) : dbus.DBusMessage :=
  reply [dbus.DArray dbus.DBUS_TYPE_STRING (map dbus.DString names)].

Definition metadataReply (entries : list dbus.DBusArg) : dbus.DBusMessage :=
  reply [dbus.DVariant (dbus.DArray dbus.DBUS_TYPE_DICT_ENTRY entries)].

Definition titleEntry (s : string) : dbus.DBusArg :=
  dbus.DDictEntry
    [dbus.DString "xesam:title"; dbus.DVariant (dbus.DString s)].

Definition albumEntry (s : string) : dbus.DBusArg :=
  dbus.DDictEntry
    [dbus.DString "xesam:album"; dbus.DVariant (dbus.DString s)].

Definition artistEntry (artists : list string) : dbus.DBusArg :=
  dbus.DDictEntry
    [dbus.DString "xesam:artist";
     dbus.DVariant
       (dbus.DArray dbus.DBUS_TYPE_STRING (map dbus.DString artists))].

(** A session bus that lists [names] and on which every player answers
    [Properties.Get] with [metadata]. *)
Definition busWorld (names : list string) (metadata : dbus.DBusMessage)
  : dbus.World :=
  dbus.mkWorld
    (fun _ => dbus.BusGetConnection)
    (fun _ _ _ _ => true)
    (fun _ _ => true)
    (fun m _ =>
       if String.eqb (dbus.msg_member m) "ListNames"
       then dbus.SendReply (namesReply names)
       else dbus.SendReply metadata).

Definition fooWorld : dbus.World :=
  busWorld ["org.mpris.MediaPlayer2.Foo"]
    (metadataReply [titleEntry "Song"; artistEntry ["Band"]; albumEntry "Rec"]).

(** No allocation inside libdbus fails. *)
Definition allocations_succeed (w : dbus.World) : Prop :=
  (forall destination path interface method,
      dbus.dbus_message_new_method_call w destination path interface method
      = true)
  /\ (forall raw arg, dbus.dbus_message_iter_append_basic w raw arg = true).

(** The session bus is reachable and answers [ListNames] with [names]. *)
Definition lists_names (w : dbus.World) (names : list string) : Prop :=
  dbus.dbus_bus_get w dbus.DBUS_BUS_SESSION = dbus.BusGetConnection
  /\ dbus.dbus_connection_send_with_reply_and_block w listNamesCall 100
     = dbus.SendReply (namesReply names).

(** The player [player] answers the metadata request with [r]. *)
Definition answers_metadata (w : dbus.World) (player : string)
           (r : dbus.DBusMessage) : Prop :=
  dbus.dbus_connection_send_with_reply_and_block w (getMetadataCall player)
    100 = dbus.SendReply r.

Definition has_prefix (name : string) : bool := starts_with name dbus.prefix.

(** The top-level shape of a metadata reply: its first argument is a
    variant that wraps an array of dictionary entries. *)
Definition dictionary_shaped (r : dbus.DBusMessage) : Prop :=
  exists entries more,
    dbus.msg_args r
    = dbus.DVariant (dbus.DArray dbus.DBUS_TYPE_DICT_ENTRY entries) :: more.

(** A dictionary entry without a string key or without a variant value. *)
Inductive malformed_entry : dbus.DBusArg -> Prop :=
| entry_without_fields : malformed_entry (dbus.DDictEntry [])
| entry_key_not_string (key : dbus.DBusArg) (rest : list dbus.DBusArg) :
    (forall s, key <> dbus.DString s) ->
    malformed_entry (dbus.DDictEntry (key :: rest))
| entry_value_missing (key : dbus.DBusArg) :
    malformed_entry (dbus.DDictEntry [key])
| entry_value_not_variant (key value : dbus.DBusArg)
    (rest : list dbus.DBusArg) :
    (forall v, value <> dbus.DVariant v) ->
    malformed_entry (dbus.DDictEntry (key :: value :: rest)).

(** The record the metadata walk starts from. *)
Definition initialData (player : string) : MediaData :=
  set_playerName MediaData_default (Some (dbus.extractPlayerName player)).

(** What one element of the dictionary array does to the record. *)
Definition entry_effect (a : dbus.DBusArg) (data : MediaData) : MediaData :=
  let entryIter := dbus.recurse (dbus.mkMessageIter [a] true) in
  if negb (dbus.isValid entryIter) then data
  else
    match dbus.getString entryIter with
    | None => data
    | Some key =>
        let (moved, entryIter') := dbus.next entryIter in
        if negb moved
           || negb (dbus.getArgType entryIter' =? dbus.DBUS_TYPE_VARIANT)%Z
        then data
        else
          let valueVariantIter := dbus.recurse entryIter' in
          if negb (dbus.isValid valueVariantIter) then data
          else dbus.applyEntry key valueVariantIter data
    end.

(** No field holds the empty string. *)
Definition no_empty_field (d : MediaData) : Prop :=
  title d <> Some "" /\ artist d <> Some "" /\ album d <> Some ""
  /\ playerName d <> Some "".


(** *** Windows *)

Definition wstring_of (s : string) : npsm.WString :=
  map (fun c => Z.of_nat (nat_of_ascii c)) (list_ascii_of_string s).

Definition string_of_wstring (wstr : npsm.WString) : string :=
  string_of_list_ascii (map (fun u => ascii_of_nat (Z.to_nat u)) wstr).

(** A conversion that is right on ASCII text: one byte per code unit;
    with a buffer it fails when the buffer is too small (error 122,
    insufficient buffer). *)
Definition asciiWideCharToMultiByte (wstr : npsm.WString) (cch cb : Z)
  : npsm.WideCharAnswer :=
  let bytes := string_of_wstring (firstn (Z.to_nat cch) wstr) in
  let size := Z.of_nat (String.length bytes) in
  if (cb =? 0)%Z then npsm.mkWideCharAnswer size "" 0
  else if (cb <? size)%Z then npsm.mkWideCharAnswer 0 "" 122
  else npsm.mkWideCharAnswer size bytes 0.

(** A conversion that always fails. *)
Definition failingWideCharToMultiByte (wstr : npsm.WString) (cch cb : Z)
  : npsm.WideCharAnswer :=
  npsm.mkWideCharAnswer 0 "" 1113.

Definition lpwstr (s : string) : npsm.HRESULT * npsm.PROPVARIANT :=
  (npsm.S_OK, npsm.mkPROPVARIANT npsm.VT_LPWSTR (Some (wstring_of s))).

Definition missing : npsm.HRESULT * npsm.PROPVARIANT :=
  (npsm.E_FAIL, npsm.mkPROPVARIANT npsm.VT_EMPTY None).

(** A property store by its answers for the three keys. *)
Definition store (forTitle forArtist forAlbum : npsm.HRESULT * npsm.PROPVARIANT)
  : npsm.IPropertyStore :=
  npsm.mkIPropertyStore
    (fun key =>
       if (npsm.pid key =? 4)%Z then forAlbum
       else if (npsm.Data1 (npsm.fmtid key) =? 0xF29F85E0)%Z then forTitle
       else forArtist).

(** A Windows 11 machine with one session, whose newer data source
    answers [GetMediaObjectInfo] with [answer]. *)
Definition sessionWorld (answer : npsm.HRESULT * option npsm.IPropertyStore)
  : npsm.World :=
  npsm.mkWorld npsm.S_OK (npsm.S_OK, Some 1%Z) (npsm.S_OK, true) npsm.S_OK
    (npsm.S_OK, true) npsm.S_OK answer
    npsm.E_NOINTERFACE (npsm.E_NOINTERFACE, None) asciiWideCharToMultiByte.

Definition failingConversionWorld : npsm.World :=
  npsm.mkWorld npsm.S_OK (npsm.S_OK, Some 1%Z) (npsm.S_OK, true) npsm.S_OK
    (npsm.S_OK, true) npsm.S_OK (npsm.E_FAIL, None)
    npsm.E_NOINTERFACE (npsm.E_NOINTERFACE, None) failingWideCharToMultiByte.

(** The lookup of [key] fails, gives another type than [VT_LPWSTR], or
    gives a null string. *)
Definition lookup_unusable (propStore : npsm.IPropertyStore)
           (key : npsm.PROPERTYKEY) : Prop :=
  npsm.FAILED (fst (npsm.GetValue propStore key)) = true
  \/ npsm.vt (snd (npsm.GetValue propStore key)) <> npsm.VT_LPWSTR
  \/ npsm.pwszVal (snd (npsm.GetValue propStore key)) = None.

(** The lookup of [key] gives a wide string that is empty after
    conversion or that does not convert. *)
Definition lookup_empty (w : npsm.World) (propStore : npsm.IPropertyStore)
           (key : npsm.PROPERTYKEY) : Prop :=
  exists wstr,
    npsm.pwszVal (snd (npsm.GetValue propStore key)) = Some wstr
    /\ (npsm.ConvertWStringToUTF8 w wstr = Ok ""
        \/ exists e, npsm.ConvertWStringToUTF8 w wstr = Err e).

(** The lookup of [key] succeeds with a non-null [VT_LPWSTR] that converts
    to the non-empty string [text]. *)
Definition lookup_text (w : npsm.World) (propStore : npsm.IPropertyStore)
           (key : npsm.PROPERTYKEY) (text : string) : Prop :=
  npsm.FAILED (fst (npsm.GetValue propStore key)) = false
  /\ npsm.vt (snd (npsm.GetValue propStore key)) = npsm.VT_LPWSTR
  /\ exists wstr,
      npsm.pwszVal (snd (npsm.GetValue propStore key)) = Some wstr
      /\ npsm.ConvertWStringToUTF8 w wstr = Ok text
      /\ text <> "".

(** *** macOS *)

Definition present_if_nonempty (s : string) : Option string :=
  match s with
  | EmptyString => None
  | String _ _ => Some s
  end.

(** A machine where the helper is installed by Homebrew and prints
    [output], read by [reader]. *)
Definition helperWorld (output : string)
           (reader : string -> option macos.MediaControlOutput)
  : macos.World :=
  macos.mkWorld (15, 5)%Z
    (fun path => String.eqb path "/opt/homebrew/bin/media-control")
    (fun _ => Some output) reader true true true None.

(** An older machine, where the private framework hands [information]
    to the handler. *)
Definition nativeWorld (information : option macos.NSDictionary)
  : macos.World :=
  macos.mkWorld (14, 0)%Z (fun _ => false) (fun _ => None) (fun _ => None)
    true true true (Some information).

End samples.

(** ** The plugin adapter ([class NowPlayingPlugin]) *)

Module plugin.

(** [Map<String, String>], by its bindings; [fields[key] = value] replaces
    the binding of [key] or adds one. *)
Definition Map : Type := list (string * string).

Fixpoint Map_set (m : Map) (key value : string) : Map :=
  match m with
  | [] => [(key, value)]
  | (k, v) :: rest =>
      if String.eqb k key then (k, value) :: rest
      else (k, v) :: Map_set rest key value
  end.

Fixpoint Map_find (m : Map) (key : string) : option string :=
  match m with
  | [] => None
  | (k, v) :: rest => if String.eqb k key then Some v else Map_find rest key
  end.

Record NowPlayingConfig : Type := mkNowPlayingConfig { enabled : bool }.

(** The members that change; [m_metadata] is fixed by the constructor. *)
Record NowPlayingPlugin : Type := mkNowPlayingPlugin {
  m_config : NowPlayingConfig;
  m_data : MediaData;
  m_lastError : Option string;
  m_ready : bool
}.

(** The state after the constructor, from the member initialisers. *)
Definition constructed : NowPlayingPlugin :=
  mkNowPlayingPlugin (mkNowPlayingConfig true) MediaData_default None false.

Definition initialize (p : NowPlayingPlugin) : Result unit * NowPlayingPlugin :=
  (Ok tt,
   mkNowPlayingPlugin (mkNowPlayingConfig true) (m_data p) (m_lastError p) true).

Definition shutdown (p : NowPlayingPlugin) : NowPlayingPlugin :=
  mkNowPlayingPlugin (m_config p) (m_data p) (m_lastError p) false.

Definition isReady (p : NowPlayingPlugin) : bool := m_ready p.

Definition isEnabled (p : NowPlayingPlugin) : bool := enabled (m_config p).

Definition getLastError (p : NowPlayingPlugin) : Option string := m_lastError p.

(** [collectData]; [fetch] is the backend the build selects, called only
    when the plugin is ready and enabled. *)
Definition collectData (fetch : unit -> Result MediaData)
           (p : NowPlayingPlugin) : Result unit * NowPlayingPlugin :=
  if negb (m_ready p) then
    (ERR NotSupported "Now Playing plugin is not ready", p)
  else if negb (enabled (m_config p)) then
    (Ok tt,
     mkNowPlayingPlugin (m_config p) (m_data p)
       (Some "Now Playing plugin is disabled") (m_ready p))
  else
    match fetch tt with
    | Err error =>
        (Err error,
         mkNowPlayingPlugin (m_config p) (m_data p) (Some (message error))
           (m_ready p))
    | Ok result =>
        (Ok tt, mkNowPlayingPlugin (m_config p) result None (m_ready p))
    end.

Definition getFields (p : NowPlayingPlugin) : Map :=
  let fields : Map := [] in
  let fields :=
    match title (m_data p) with
    | Some s => Map_set fields "title" s
    | None => fields
    end in
  let fields :=
    match artist (m_data p) with
    | Some s => Map_set fields "artist" s
    | None => fields
    end in
  let fields :=
    match album (m_data p) with
    | Some s => Map_set fields "album" s
    | None => fields
    end in
  let fields :=
    match playerName (m_data p) with
    | Some s => Map_set fields "player" s
    | None => fields
    end in
  fields.

Definition getDisplayValue (p : NowPlayingPlugin) : Result string :=
  match title (m_data p) with
  | None => ERR NotFound "No media currently playing"
  | Some t =>
      match artist (m_data p) with
      | Some a => Ok (a ++ " - " ++ t)
      | None => Ok t
      end
  end.

End plugin.

(** ** Further vocabulary of the statements *)

Module terms.

(** The error [sendWithReplyAndBlock] makes of a call that gives no reply. *)
Definition transport_error (outcome : dbus.SendOutcome) : option DracError :=
  match outcome with
  | dbus.SendError msg =>
      Some (mkDracError PlatformSpecific ("DBus error: " ++ msg))
  | dbus.SendNull =>
      Some (mkDracError ApiUnavailable "DBus returned null without error")
  | dbus.SendReply _ => None
  end.

(** The strings among the elements of an array. *)
Fixpoint string_items (cur : list dbus.DBusArg) : list string :=
  match cur with
  | [] => []
  | dbus.DString s :: rest => s :: string_items rest
  | _ :: rest => string_items rest
  end.

(** The text a value stands for: a non-empty string, or nothing. *)
Definition string_value (v : dbus.DBusArg) : Option string :=
  match v with
  | dbus.DString s => samples.present_if_nonempty s
  | _ => None
  end.

(** A dictionary entry with the string key [key] and the value [v] in a
    variant. *)
Definition entry (key : string) (v : dbus.DBusArg) : dbus.DBusArg :=
  dbus.DDictEntry [dbus.DString key; dbus.DVariant v].

(** The message [raw] with the strings [args] appended to its arguments. *)
Definition with_strings (raw : dbus.DBusMessage) (args : list string)
  : dbus.DBusMessage :=
  dbus.mkDBusMessage (dbus.msg_destination raw) (dbus.msg_path raw)
    (dbus.msg_interface raw) (dbus.msg_member raw)
    (dbus.msg_args raw ++ map dbus.DString args)%list.

(** The four steps before the data source is queried for an interface
    all succeed. *)
Definition session_activated (w : npsm.World) : Prop :=
  npsm.FAILED (npsm.CoCreateInstance w) = false
  /\ npsm.FAILED (fst (npsm.get_CurrentSession w)) = false
  /\ snd (npsm.get_CurrentSession w) = true
  /\ npsm.FAILED (npsm.As_INowPlayingSession w) = false
  /\ npsm.FAILED (fst (npsm.ActivateMediaPlaybackDataSource w)) = false
  /\ snd (npsm.ActivateMediaPlaybackDataSource w) = true.

(** What a [GetMediaObjectInfo] answer turns into. *)
Definition store_of (answer : npsm.HRESULT * option npsm.IPropertyStore)
  : Result npsm.IPropertyStore :=
  match answer with
  | (hr, Some propStore) =>
      if npsm.FAILED hr then ERR ApiUnavailable "Failed to get media object info"
      else Ok propStore
  | (_, None) => ERR ApiUnavailable "Failed to get media object info"
  end.

(** The three keys of the now-playing dictionary. *)
Definition titleKey : string := "kMRMediaRemoteNowPlayingInfoTitle".
Definition artistKey : string := "kMRMediaRemoteNowPlayingInfoArtist".
Definition albumKey : string := "kMRMediaRemoteNowPlayingInfoAlbum".

(** A backend that always gives [r]. *)
Definition always (r : Result MediaData) : unit -> Result MediaData :=
  fun _ => r.

(** The line the display shows for a record with the title [t]. *)
Definition display_line (d : MediaData) (t : string) : string :=
  match artist d with
  | Some a => a ++ " - " ++ t
  | None => t
  end.

(** A session bus on which [ListNames] ends in [outcome] and every other
    call in [after]; [appends] tells whether libdbus can append. *)
Definition scriptedBus (outcome after : dbus.SendOutcome) (appends : bool)
  : dbus.World :=
  dbus.mkWorld
    (fun _ => dbus.BusGetConnection)
    (fun _ _ _ _ => true)
    (fun _ _ => appends)
    (fun m _ =>
       if String.eqb (dbus.msg_member m) "ListNames" then outcome else after).

(** A Windows machine by the answers of its negotiation steps, with the
    ASCII conversion. *)
Definition negotiationWorld
           (session : npsm.HRESULT * bool)
           (as2 : npsm.HRESULT)
           (answer2 : npsm.HRESULT * option npsm.IPropertyStore)
           (as1 : npsm.HRESULT)
           (answer1 : npsm.HRESULT * option npsm.IPropertyStore)
  : npsm.World :=
  npsm.mkWorld npsm.S_OK (npsm.S_OK, Some 3%Z) session npsm.S_OK
    (npsm.S_OK, true) as2 answer2 as1 answer1
    samples.asciiWideCharToMultiByte.

(** The states the plugin can be in: what the constructor gives, and what
    the public operations make of such a state. *)
Inductive reachable : plugin.NowPlayingPlugin -> Prop :=
| reachable_constructed : reachable plugin.constructed
| reachable_initialize (p : plugin.NowPlayingPlugin) :
    reachable p -> reachable (snd (plugin.initialize p))
| reachable_shutdown (p : plugin.NowPlayingPlugin) :
    reachable p -> reachable (plugin.shutdown p)
| reachable_collectData (fetch : unit -> Result MediaData)
    (p : plugin.NowPlayingPlugin) :
    reachable p -> reachable (snd (plugin.collectData fetch p)).

End terms.

(** ** Consecutive calls: the native side as a state

    The backends above take the native answers as a fixed record.  To
    follow two calls in a row the native side gets a state of its own
    (reference counts, serial numbers, caches, the file system), which
    every native call may change, and the backends are written once more
    as programs that pass it along, call by call, in the order of the
    sources. *)

Module native.

(** A native call: its answer and the state of the native side after it. *)
Definition Native (S A : Type) : Type := S -> A * S.

Definition ret {S A : Type} (a : A) : Native S A := fun s => (a, s).

Definition bind {S A B : Type} (m : Native S A) (k : A -> Native S B)
  : Native S B :=
  fun s => let (a, s') := m s in k a s'.

Definition seq {S A B : Type} (m : Native S A) (k : Native S B) : Native S B :=
  bind m (fun _ => k).

(** [m] gives the same answer in any two states that show the same media
    state, and does not change the media state. *)
Definition steady {S V A : Type} (media : S -> V) (m : Native S A) : Prop :=
  forall s s', media s = media s' ->
               fst (m s) = fst (m s') /\ media (snd (m s)) = media s.

(** In every state with the media state [v], [m] answers [a] and leaves
    the media state as it is. *)
Definition answers {S V A : Type} (media : S -> V) (v : V)
           (m : Native S A) (a : A) : Prop :=
  forall s, media s = v -> fst (m s) = a /\ media (snd (m s)) = v.

(** The same for an answer that stands in the relation [R] to [b]. *)
Definition answers_as {S V A B : Type} (R : A -> B -> Prop) (media : S -> V)
           (v : V) (m : Native S A) (b : B) : Prop :=
  forall s, media s = v -> R (fst (m s)) b /\ media (snd (m s)) = v.

(** Two calls of [run] in a row from [s0] both return [expected], and the
    media state is the same afterwards. *)
Definition twice {S V A : Type} (media : S -> V) (run : Native S A)
           (expected : A) (s0 : S) : Prop :=
  fst (run s0) = expected
  /\ fst (run (snd (run s0))) = expected
  /\ media (snd (run (snd (run s0)))) = media s0.

End native.

Notation "'call' x ':=' m 'in' k" := (native.bind m (fun x => k))
  (at level 10, x name, m at level 100, k at level 200).
Notation "m '>>' k" := (native.seq m k) (at level 61, right associativity).

(** *** MPRIS over DBus, call by call *)

Module dbus_calls.

Import native.

(** libdbus with a state: the four entry points that answer, and the two
    releases the wrappers do in their destructors. *)
Record Bus (S : Type) : Type := mkBus {
  dbus_bus_get : Z -> Native S dbus.BusGetOutcome;
  dbus_message_new_method_call :
    string -> string -> string -> string -> Native S bool;
  dbus_message_iter_append_basic : dbus.DBusMessage -> string -> Native S bool;
  dbus_connection_send_with_reply_and_block :
    dbus.DBusMessage -> Z -> Native S dbus.SendOutcome;
  dbus_message_unref : dbus.DBusMessage -> Native S unit;
  dbus_connection_unref : Native S unit
}.
Arguments dbus_bus_get {S}.
Arguments dbus_message_new_method_call {S}.
Arguments dbus_message_iter_append_basic {S}.
Arguments dbus_connection_send_with_reply_and_block {S}.
Arguments dbus_message_unref {S}.
Arguments dbus_connection_unref {S}.

Section Calls.

Context {S : Type} (b : Bus S).

(** [~Message()] and [~Connection()]. *)
Definition Message_destroy (m : dbus.Message) : Native S unit :=
  match dbus.m_msg m with
  | Some raw => dbus_message_unref b raw
  | None => ret tt
  end.

Definition Connection_destroy (c : dbus.Connection) : Native S unit :=
  if dbus.m_conn c then dbus_connection_unref b else ret tt.

Definition busGet (bus_type : Z) : Native S (Result dbus.Connection) :=
  call outcome := dbus_bus_get b bus_type in
  ret match outcome with
      | dbus.BusGetError msg =>
          ERR ApiUnavailable ("DBus bus_get failed: " ++ msg)
      | dbus.BusGetNull =>
          ERR ApiUnavailable "dbus_bus_get returned null without error"
      | dbus.BusGetConnection => Ok (dbus.mkConnection true)
      end.

Definition newMethodCall (destination path interface method : string)
  : Native S (Result dbus.Message) :=
  call rawMsg := dbus_message_new_method_call b destination path interface
                   method in
  ret (if rawMsg then
         Ok (dbus.mkMessage
               (Some (dbus.mkDBusMessage destination path interface method [])))
       else ERR OutOfMemory "dbus_message_new_method_call failed").

Definition appendArgInternal (raw : dbus.DBusMessage) (arg : string)
  : Native S (bool * dbus.DBusMessage) :=
  call appended := dbus_message_iter_append_basic b raw arg in
  ret (if appended then
         (true,
          dbus.mkDBusMessage (dbus.msg_destination raw) (dbus.msg_path raw)
            (dbus.msg_interface raw) (dbus.msg_member raw)
            (dbus.msg_args raw ++ [dbus.DString arg])%list)
       else (false, raw)).

Fixpoint appendArgs_fold (success : bool) (raw : dbus.DBusMessage)
         (args : list string) : Native S (bool * dbus.DBusMessage) :=
  match args with
  | [] => ret (success, raw)
  | arg :: rest =>
      if success then
        call step := appendArgInternal raw arg in
        appendArgs_fold (fst step) (snd step) rest
      else appendArgs_fold false raw rest
  end.

Definition appendArgs (m : dbus.Message) (args : list string)
  : Native S (bool * dbus.Message) :=
  match dbus.m_msg m with
  | None => ret (false, m)
  | Some raw =>
      call folded := appendArgs_fold true raw args in
      ret (fst folded, dbus.mkMessage (Some (snd folded)))
  end.

Definition sendWithReplyAndBlock (c : dbus.Connection) (message : dbus.Message)
           (timeout_milliseconds : Z) : Native S (Result dbus.Message) :=
  match dbus.m_conn c, dbus.m_msg message with
  | true, Some raw =>
      call outcome := dbus_connection_send_with_reply_and_block b raw
                        timeout_milliseconds in
      ret match outcome with
          | dbus.SendError msg => ERR PlatformSpecific ("DBus error: " ++ msg)
          | dbus.SendNull => ERR ApiUnavailable "DBus returned null without error"
          | dbus.SendReply rawReply => Ok (dbus.mkMessage (Some rawReply))
          end
  | _, _ => ret (ERR InvalidArgument "Invalid connection or message")
  end.

(** The walk over the [ListNames] reply; it only reads the reply. *)
Definition parseNames (listNamesReply : dbus.Message)
  : Result (Option string) :=
  let iter := dbus.iterInit listNamesReply in
  if negb (dbus.isValid iter)
     || negb (dbus.getArgType iter =? dbus.DBUS_TYPE_ARRAY)%Z then
    ERR ParseError "Invalid DBus ListNames reply format: Expected array"
  else
    let subIter := dbus.recurse iter in
    if negb (dbus.isValid subIter) then
      ERR ParseError
        "Invalid DBus ListNames reply format: Could not recurse into array"
    else Ok (dbus.findActivePlayer (dbus.m_iter subIter)).

(** The block that computes [activePlayer]; on each way out the messages
    of the block are released, the reply before the request. *)
Definition discover (connection : dbus.Connection)
  : Native S (Result (Option string)) :=
  call created :=
    newMethodCall "org.freedesktop.DBus" "/org/freedesktop/DBus"
      "org.freedesktop.DBus" "ListNames" in
  match created with
  | Err e => ret (Err e)
  | Ok listNamesMsg =>
      call sent := sendWithReplyAndBlock connection listNamesMsg 100 in
      match sent with
      | Err e => Message_destroy listNamesMsg >> ret (Err e)
      | Ok listNamesReply =>
          Message_destroy listNamesReply >> Message_destroy listNamesMsg
          >> ret (parseNames listNamesReply)
      end
  end.

(** The request to the selected player and the walk over its reply. *)
Definition retrieve (connection : dbus.Connection) (activePlayer : string)
  : Native S (Result MediaData) :=
  call created :=
    newMethodCall activePlayer "/org/mpris/MediaPlayer2"
      "org.freedesktop.DBus.Properties" "Get" in
  match created with
  | Err e => ret (Err e)
  | Ok msg =>
      call appended :=
        appendArgs msg ["org.mpris.MediaPlayer2.Player"; "Metadata"] in
      let msg' := snd appended in
      if negb (fst appended) then
        Message_destroy msg'
        >> ret (ERR InternalError
                  "Failed to append arguments to Properties.Get message")
      else
        call sent := sendWithReplyAndBlock connection msg' 100 in
        match sent with
        | Err e => Message_destroy msg' >> ret (Err e)
        | Ok reply =>
            let data :=
              set_playerName MediaData_default
                (Some (dbus.extractPlayerName activePlayer)) in
            Message_destroy reply >> Message_destroy msg'
            >> ret (dbus.parseMetadata reply data)
        end
  end.

(** [fetchNowPlaying]; the connection is released last on every way out
    after it was obtained. *)
Definition fetchNowPlaying : Native S (Result MediaData) :=
  call connected := busGet dbus.DBUS_BUS_SESSION in
  match connected with
  | Err e => ret (Err e)
  | Ok connection =>
      call discovered := discover connection in
      match discovered with
      | Err e => Connection_destroy connection >> ret (Err e)
      | Ok None =>
          Connection_destroy connection
          >> ret (ERR NotFound "No active MPRIS players found")
      | Ok (Some activePlayer) =>
          call result := retrieve connection activePlayer in
          Connection_destroy connection >> ret result
      end
  end.

(** The answers the bus gives in the state [s], as a fixed record. *)
Definition snapshot (s : S) : dbus.World :=
  dbus.mkWorld
    (fun bus_type => fst (dbus_bus_get b bus_type s))
    (fun destination path interface method =>
       fst (dbus_message_new_method_call b destination path interface method s))
    (fun raw arg => fst (dbus_message_iter_append_basic b raw arg s))
    (fun m timeout =>
       fst (dbus_connection_send_with_reply_and_block b m timeout s)).

(** Every call of the bus is steady for the media state shown by [media]. *)
Definition steady_bus {V : Type} (media : S -> V) : Prop :=
  (forall bus_type, steady media (dbus_bus_get b bus_type))
  /\ (forall destination path interface method,
         steady media
           (dbus_message_new_method_call b destination path interface method))
  /\ (forall raw arg, steady media (dbus_message_iter_append_basic b raw arg))
  /\ (forall m timeout,
         steady media (dbus_connection_send_with_reply_and_block b m timeout))
  /\ (forall raw, steady media (dbus_message_unref b raw))
  /\ steady media (dbus_connection_unref b).

End Calls.

End dbus_calls.

(** *** Windows NPSM, call by call *)

Module npsm_calls.

Import native.

(** The COM side with a state; [H] stands for the property store the
    data source hands out, whose [GetValue] is a call like the others. *)
Record Com (S H : Type) : Type := mkCom {
  CoCreateInstance : Native S npsm.HRESULT;
  get_Count : Native S (npsm.HRESULT * option Z);
  get_CurrentSession : Native S (npsm.HRESULT * bool);
  As_INowPlayingSession : Native S npsm.HRESULT;
  ActivateMediaPlaybackDataSource : Native S (npsm.HRESULT * bool);
  As_IMediaPlaybackDataSource2 : Native S npsm.HRESULT;
  DataSource2_GetMediaObjectInfo : Native S (npsm.HRESULT * option H);
  As_IMediaPlaybackDataSource : Native S npsm.HRESULT;
  DataSource_GetMediaObjectInfo : Native S (npsm.HRESULT * option H);
  GetValue : H -> npsm.PROPERTYKEY -> Native S (npsm.HRESULT * npsm.PROPVARIANT);
  PropVariantClear : Native S unit;
  WideCharToMultiByte : npsm.WString -> Z -> Z -> Native S npsm.WideCharAnswer
}.
Arguments CoCreateInstance {S H}.
Arguments get_Count {S H}.
Arguments get_CurrentSession {S H}.
Arguments As_INowPlayingSession {S H}.
Arguments ActivateMediaPlaybackDataSource {S H}.
Arguments As_IMediaPlaybackDataSource2 {S H}.
Arguments DataSource2_GetMediaObjectInfo {S H}.
Arguments As_IMediaPlaybackDataSource {S H}.
Arguments DataSource_GetMediaObjectInfo {S H}.
Arguments GetValue {S H}.
Arguments PropVariantClear {S H}.
Arguments WideCharToMultiByte {S H}.

Section Calls.

Context {S H : Type} (c : Com S H).

Definition ConvertWStringToUTF8 (wstr : npsm.WString)
  : Native S (Result string) :=
  match wstr with
  | [] => ret (Ok "")
  | _ :: _ =>
      let cch := npsm.to_i32 (Z.of_nat (List.length wstr)) in
      call first := WideCharToMultiByte c wstr cch 0 in
      let sizeNeeded := npsm.wc_return first in
      if (sizeNeeded =? 0)%Z then
        ret (ERR InternalError
               ("Failed to get buffer size for UTF-8 conversion. Error code: "
                ++ npsm.format_dec (npsm.wc_last_error first)))
      else
        let result := npsm.nul_string (Z.to_nat sizeNeeded) in
        call second := WideCharToMultiByte c wstr cch sizeNeeded in
        if (npsm.wc_return second =? 0)%Z then
          ret (ERR InternalError
                 ("Failed to convert wide string to UTF-8. Error code: "
                  ++ npsm.format_dec (npsm.wc_last_error second)))
        else ret (Ok (npsm.write_buffer result (npsm.wc_written second)))
  end.

Definition readProperty (propStore : H) (key : npsm.PROPERTYKEY)
  : Native S (Option string) :=
  call got := GetValue c propStore key in
  if npsm.SUCCEEDED (fst got) && (npsm.vt (snd got) =? npsm.VT_LPWSTR)%Z then
    match npsm.pwszVal (snd got) with
    | Some wstr =>
        call converted := ConvertWStringToUTF8 wstr in
        ret match converted with
            | Ok str => if negb (empty str) then Some str else None
            | Err _ => None
            end
    | None => ret None
    end
  else ret None.

(** The three reads, each followed by [PropVariantClear]. *)
Definition readMediaData (propStore : H) : Native S MediaData :=
  let data := MediaData_default in
  call titleStr := readProperty propStore npsm.PKEY_Title in
  let data := npsm.assign_if set_title data titleStr in
  PropVariantClear c
  >> call artistStr := readProperty propStore npsm.PKEY_Music_Artist in
     let data := npsm.assign_if set_artist data artistStr in
     PropVariantClear c
     >> call albumStr := readProperty propStore npsm.PKEY_Music_AlbumTitle in
        let data := npsm.assign_if set_album data albumStr in
        PropVariantClear c >> ret data.

Definition finish (answer : npsm.HRESULT * option H) : Result H :=
  match answer with
  | (result, Some propStore) =>
      if npsm.FAILED result then
        ERR ApiUnavailable "Failed to get media object info"
      else Ok propStore
  | (_, None) => ERR ApiUnavailable "Failed to get media object info"
  end.

Definition getPropertyStore : Native S (Result H) :=
  call result := CoCreateInstance c in
  if npsm.FAILED result then
    ret (ERR ApiUnavailable
           ("Failed to create NowPlayingSessionManager (HRESULT: 0x"
            ++ npsm.format_08X (npsm.to_u32 result) ++ ")"))
  else
    call counted := get_Count c in
    let sessionCount :=
      match snd counted with Some n => n | None => 0%Z end in
    call current := get_CurrentSession c in
    if npsm.FAILED (fst current) || negb (snd current) then
      ret (ERR NotFound
             ("No media session found (HRESULT: 0x"
              ++ npsm.format_08X (npsm.to_u32 (fst current))
              ++ ", sessionCount=" ++ npsm.format_dec sessionCount ++ ")"))
    else
      call result := As_INowPlayingSession c in
      if npsm.FAILED result then
        ret (ERR ApiUnavailable
               ("Failed to get INowPlayingSession interface (HRESULT: 0x"
                ++ npsm.format_08X (npsm.to_u32 result) ++ ")"))
      else
        call activated := ActivateMediaPlaybackDataSource c in
        if npsm.FAILED (fst activated) || negb (snd activated) then
          ret (ERR ApiUnavailable
                 ("Failed to activate MediaPlaybackDataSource (HRESULT: 0x"
                  ++ npsm.format_08X (npsm.to_u32 (fst activated)) ++ ")"))
        else
          call result := As_IMediaPlaybackDataSource2 c in
          if npsm.SUCCEEDED result then
            call answer := DataSource2_GetMediaObjectInfo c in
            ret (finish answer)
          else
            call result := As_IMediaPlaybackDataSource c in
            if npsm.FAILED result then
              ret (ERR ApiUnavailable
                     ("Failed to get IMediaPlaybackDataSource interface (HRESULT: 0x"
                      ++ npsm.format_08X (npsm.to_u32 result) ++ ")"))
            else
              call answer := DataSource_GetMediaObjectInfo c in
              ret (finish answer).

Definition FetchNowPlaying : Native S (Result MediaData) :=
  call obtained := getPropertyStore in
  match obtained with
  | Err e => ret (Err e)
  | Ok propStore =>
      call data := readMediaData propStore in
      ret (Ok data)
  end.

(** The answers the COM side gives in the state [s], as a fixed record. *)
Definition store_at (s : S) (propStore : H) : npsm.IPropertyStore :=
  npsm.mkIPropertyStore (fun key => fst (GetValue c propStore key s)).

Definition answer_at (s : S) (answer : npsm.HRESULT * option H)
  : npsm.HRESULT * option npsm.IPropertyStore :=
  (fst answer, option_map (store_at s) (snd answer)).

Definition snapshot (s : S) : npsm.World :=
  npsm.mkWorld
    (fst (CoCreateInstance c s))
    (fst (get_Count c s))
    (fst (get_CurrentSession c s))
    (fst (As_INowPlayingSession c s))
    (fst (ActivateMediaPlaybackDataSource c s))
    (fst (As_IMediaPlaybackDataSource2 c s))
    (answer_at s (fst (DataSource2_GetMediaObjectInfo c s)))
    (fst (As_IMediaPlaybackDataSource c s))
    (answer_at s (fst (DataSource_GetMediaObjectInfo c s)))
    (fun wstr cch cb => fst (WideCharToMultiByte c wstr cch cb s)).

Definition result_at (s : S) (obtained : Result H)
  : Result npsm.IPropertyStore :=
  match obtained with
  | Ok propStore => Ok (store_at s propStore)
  | Err e => Err e
  end.

Definition steady_com {V : Type} (media : S -> V) : Prop :=
  steady media (CoCreateInstance c)
  /\ steady media (get_Count c)
  /\ steady media (get_CurrentSession c)
  /\ steady media (As_INowPlayingSession c)
  /\ steady media (ActivateMediaPlaybackDataSource c)
  /\ steady media (As_IMediaPlaybackDataSource2 c)
  /\ steady media (DataSource2_GetMediaObjectInfo c)
  /\ steady media (As_IMediaPlaybackDataSource c)
  /\ steady media (DataSource_GetMediaObjectInfo c)
  /\ (forall propStore key, steady media (GetValue c propStore key))
  /\ steady media (PropVariantClear c)
  /\ (forall wstr cch cb, steady media (WideCharToMultiByte c wstr cch cb)).

End Calls.

End npsm_calls.

(** *** macOS, call by call *)

Module macos_calls.

Import native.

(** The native side with a state.  [popen] stands for the pipe from its
    opening to its closing; [glz_read] is the JSON reader, which has no
    state. *)
Record Mac (S : Type) : Type := mkMac {
  operatingSystemVersion : Native S (Z * Z);
  access_X_OK : string -> Native S bool;
  popen : string -> Native S (option string);
  glz_read : string -> option macos.MediaControlOutput;
  CFURLCreateWithFileSystemPath : Native S bool;
  CFBundleCreate : Native S bool;
  CFRelease : Native S unit;
  CFBundleGetFunctionPointerForName : Native S bool;
  MRMediaRemoteGetNowPlayingInfo : Native S (option (option macos.NSDictionary))
}.
Arguments operatingSystemVersion {S}.
Arguments access_X_OK {S}.
Arguments popen {S}.
Arguments glz_read {S}.
Arguments CFURLCreateWithFileSystemPath {S}.
Arguments CFBundleCreate {S}.
Arguments CFRelease {S}.
Arguments CFBundleGetFunctionPointerForName {S}.
Arguments MRMediaRemoteGetNowPlayingInfo {S}.

Section Calls.

Context {S : Type} (m : Mac S).

(** The loop of [isMediaControlAvailable]: it stops at the first path
    that can be executed. *)
Fixpoint isMediaControlAvailable_from (paths : list string) : Native S bool :=
  match paths with
  | [] => ret false
  | path :: rest =>
      call executable := access_X_OK m path in
      if executable then ret true else isMediaControlAvailable_from rest
  end.

Definition isMediaControlAvailable : Native S bool :=
  isMediaControlAvailable_from macos.paths.

(** The loop of [getMediaControlPath], a scan of its own. *)
Fixpoint getMediaControlPath_from (paths : list string)
  : Native S (Option string) :=
  match paths with
  | [] => ret None
  | path :: rest =>
      call executable := access_X_OK m path in
      if executable then ret (Some path) else getMediaControlPath_from rest
  end.

Definition getMediaControlPath : Native S (Option string) :=
  getMediaControlPath_from macos.paths.

(** What [fetchViaMediaControl] makes of the captured output. *)
Definition decodeOutput (output : string) : Result MediaData :=
  if empty output || String.eqb output ("null" ++ macos.newline)
     || String.eqb output "null" then
    ERR NotFound "No media is currently playing"
  else
    match glz_read m output with
    | None => ERR ParseError "Failed to parse media-control output"
    | Some parsed =>
        if empty (macos.mc_title parsed) then
          ERR NotFound "No media is currently playing"
        else
          let data := MediaData_default in
          let data := set_title data (Some (macos.mc_title parsed)) in
          let data :=
            if negb (empty (macos.mc_artist parsed)) then
              set_artist data (Some (macos.mc_artist parsed))
            else data in
          let data :=
            if negb (empty (macos.mc_album parsed)) then
              set_album data (Some (macos.mc_album parsed))
            else data in
          Ok data
    end.

Definition fetchViaMediaControl : Native S (Result MediaData) :=
  call pathOpt := getMediaControlPath in
  match pathOpt with
  | None =>
      ret (ERR ApiUnavailable
             "media-control CLI not found. Install via: brew install media-control")
  | Some path =>
      call piped := popen m (path ++ " get 2>/dev/null") in
      ret match piped with
          | None => ERR IoError "Failed to execute media-control"
          | Some output => decodeOutput output
          end
  end.

(** [fetchViaNativeApi]; the answer is [None] when the handler is never
    called and the wait does not end. *)
Definition fetchViaNativeApi : Native S (option (Result MediaData)) :=
  call urlRef := CFURLCreateWithFileSystemPath m in
  if negb urlRef then
    ret (Some (ERR NotFound "Failed to create CFURL for MediaRemote.framework"))
  else
    call bundleRef := CFBundleCreate m in
    CFRelease m
    >> if negb bundleRef then
         ret (Some (ERR ApiUnavailable
                      "Failed to create bundle for MediaRemote.framework"))
       else
         call resolved := CFBundleGetFunctionPointerForName m in
         if negb resolved then
           CFRelease m
           >> ret (Some (ERR ApiUnavailable
                           "Failed to get MRMediaRemoteGetNowPlayingInfo function pointer"))
         else
           call delivered := MRMediaRemoteGetNowPlayingInfo m in
           ret match delivered with
               | None => None
               | Some information => Some (macos.handler information)
               end.

Definition restricted_version (version : Z * Z) : bool :=
  let (majorVersion, minorVersion) := version in
  if (15 <? majorVersion)%Z then true
  else if (majorVersion =? 15)%Z && (4 <=? minorVersion)%Z then true
  else false.

(** [isMediaRemoteRestricted] with its function-local [static]: [None]
    before the first call, and the value computed then ever after. *)
Definition isMediaRemoteRestricted (restricted : option bool)
  : Native S (bool * option bool) :=
  match restricted with
  | Some value => ret (value, restricted)
  | None =>
      call version := operatingSystemVersion m in
      ret (restricted_version version, Some (restricted_version version))
  end.

Definition fetchNowPlaying (restricted : option bool)
  : Native S (option (Result MediaData) * option bool) :=
  call probed := isMediaRemoteRestricted restricted in
  if fst probed then
    call available := isMediaControlAvailable in
    if available then
      call result := fetchViaMediaControl in
      ret (Some result, snd probed)
    else
      ret (Some (ERR ApiUnavailable
                   "Now Playing requires 'media-control' on macOS 15.4+. Install via: brew install media-control"),
           snd probed)
  else
    call result := fetchViaNativeApi in
    ret (result, snd probed).

(** The process: the static of the program next to the native state. *)
Definition process : Native (option bool * S) (option (Result MediaData)) :=
  fun state =>
    let (answer, s') := fetchNowPlaying (fst state) (snd state) in
    (fst answer, (snd answer, s')).

Definition snapshot (s : S) : macos.World :=
  macos.mkWorld
    (fst (operatingSystemVersion m s))
    (fun path => fst (access_X_OK m path s))
    (fun command => fst (popen m command s))
    (glz_read m)
    (fst (CFURLCreateWithFileSystemPath m s))
    (fst (CFBundleCreate m s))
    (fst (CFBundleGetFunctionPointerForName m s))
    (fst (MRMediaRemoteGetNowPlayingInfo m s)).

Definition steady_mac {V : Type} (media : S -> V) : Prop :=
  steady media (operatingSystemVersion m)
  /\ (forall path, steady media (access_X_OK m path))
  /\ (forall command, steady media (popen m command))
  /\ steady media (CFURLCreateWithFileSystemPath m)
  /\ steady media (CFBundleCreate m)
  /\ steady media (CFRelease m)
  /\ steady media (CFBundleGetFunctionPointerForName m)
  /\ steady media (MRMediaRemoteGetNowPlayingInfo m).

End Calls.

End macos_calls.

(** *** Native sides that count their calls *)

Module counted.

(** A call that answers [a] and moves the counter of calls. *)
Definition tick {A : Type} (a : A) : native.Native nat A :=
  fun n => (a, S n).

(** The counter shows nothing of the media state. *)
Definition still (n : nat) : unit := tt.

(** The bus that answers as [w] does and counts every call. *)
Definition bus (w : dbus.World) : dbus_calls.Bus nat :=
  dbus_calls.mkBus nat
    (fun bus_type => tick (dbus.dbus_bus_get w bus_type))
    (fun destination path interface method =>
       tick (dbus.dbus_message_new_method_call w destination path interface
               method))
    (fun raw arg => tick (dbus.dbus_message_iter_append_basic w raw arg))
    (fun m timeout =>
       tick (dbus.dbus_connection_send_with_reply_and_block w m timeout))
    (fun _ => tick tt)
    (tick tt).

Definition com (w : npsm.World) : npsm_calls.Com nat npsm.IPropertyStore :=
  npsm_calls.mkCom nat npsm.IPropertyStore
    (tick (npsm.CoCreateInstance w))
    (tick (npsm.get_Count w))
    (tick (npsm.get_CurrentSession w))
    (tick (npsm.As_INowPlayingSession w))
    (tick (npsm.ActivateMediaPlaybackDataSource w))
    (tick (npsm.As_IMediaPlaybackDataSource2 w))
    (tick (npsm.DataSource2_GetMediaObjectInfo w))
    (tick (npsm.As_IMediaPlaybackDataSource w))
    (tick (npsm.DataSource_GetMediaObjectInfo w))
    (fun propStore key => tick (npsm.GetValue propStore key))
    (tick tt)
    (fun wstr cch cb => tick (npsm.WideCharToMultiByte w wstr cch cb)).

Definition mac (w : macos.World) : macos_calls.Mac nat :=
  macos_calls.mkMac nat
    (tick (macos.operatingSystemVersion w))
    (fun path => tick (macos.access_X_OK w path))
    (fun command => tick (macos.popen w command))
    (macos.glz_read w)
    (tick (macos.CFURLCreateWithFileSystemPath w))
    (tick (macos.CFBundleCreate w))
    (tick tt)
    (tick (macos.CFBundleGetFunctionPointerForName w))
    (tick (macos.MRMediaRemoteGetNowPlayingInfo w)).

(** macOS 15.5 where the Homebrew helper can be executed when [access] is
    asked for the first time, and no more afterwards; the state counts the
    questions to [access]. *)
Definition vanishingHelper : macos_calls.Mac nat :=
  macos_calls.mkMac nat
    (fun n => ((15, 5)%Z, n))
    (fun path n =>
       (Nat.eqb n 0 && String.eqb path "/opt/homebrew/bin/media-control", S n))
    (fun _ n => (None, n))
    (fun _ => None)
    (fun n => (true, n))
    (fun n => (true, n))
    (fun n => (tt, n))
    (fun n => (true, n))
    (fun n => (None, n)).

End counted.

(** * Properties *)

(** ** Strings *)

Lemma starts_with_app (p r : string) : starts_with (p ++ r) p = true.
Proof.
  induction p as [| c p IH]; simpl; [reflexivity |].
  now rewrite Ascii.eqb_refl.
Qed.

Lemma substr_app (p r : string) : substr (p ++ r) (String.length p) = r.
Proof.
  induction p as [| c p IH]; simpl; [reflexivity | exact IH].
Qed.

Lemma starts_with_split (s p : string) :
  starts_with s p = true -> s = p ++ substr s (String.length p).
Proof.
  revert s; induction p as [| c p IH]; intros s H; simpl in *; [reflexivity |].
  destruct s as [| d s]; [discriminate |].
  destruct (Ascii.eqb c d) eqn:E; [| discriminate].
  apply Ascii.eqb_eq in E; subst d.
  now rewrite <- (IH s H).
Qed.

Lemma empty_true (s : string) : empty s = true <-> s = "".
Proof. destruct s; simpl; split; congruence. Qed.

Lemma empty_false (s : string) : empty s = false <-> s <> "".
Proof. destruct s; simpl; split; congruence. Qed.


Lemma starts_with_iff (s p : string) :
  starts_with s p = true <-> exists r, s = p ++ r.
Proof.
  split.
  - intros H; exists (substr s (String.length p)); now apply starts_with_split.
  - intros [r ->]; apply starts_with_app.
Qed.

(** ** The DBus backend *)

Section DBusBackend.

Import dbus samples.

Lemma findActivePlayer_cons_string (name : string) (rest : list DBusArg) :
  findActivePlayer (DString name :: rest)
  = if has_prefix name then Some name else findActivePlayer rest.
Proof.
  unfold has_prefix.
  destruct name as [| c name].
  - destruct rest; reflexivity.
  - cbn -[starts_with prefix].
    destruct (starts_with (String c name) prefix); [reflexivity |].
    destruct rest; reflexivity.
Qed.

Lemma findActivePlayer_names (names : list string) :
  findActivePlayer (map DString names) = find has_prefix names.
Proof.
  induction names as [| name names IH]; [reflexivity |].
  cbn [map find]. rewrite findActivePlayer_cons_string.
  destruct (has_prefix name); [reflexivity | exact IH].
Qed.

Lemma discover_names (w : World) (names : list string) :
  allocations_succeed w -> lists_names w names ->
  busGet w DBUS_BUS_SESSION = Ok (mkConnection true)
  /\ discover w (mkConnection true) = Ok (find has_prefix names).
Proof.
  intros [Hnew _] [Hbus Hsend]. unfold busGet, discover, newMethodCall.
  rewrite Hbus, Hnew. cbn.
  change (mkDBusMessage _ _ _ _ []) with listNamesCall.
  rewrite Hsend. cbn -[findActivePlayer]. split; [reflexivity |].
  now rewrite findActivePlayer_names.
Qed.

Lemma retrieve_reply (w : World) (player : string) (r : DBusMessage) :
  allocations_succeed w -> answers_metadata w player r ->
  retrieve w (mkConnection true) player
  = parseMetadata (mkMessage (Some r))
      (set_playerName MediaData_default (Some (extractPlayerName player))).
Proof.
  intros [Hnew Happ] Hsend. unfold retrieve, newMethodCall.
  rewrite Hnew. cbn. unfold appendArgInternal. rewrite Happ. cbn.
  rewrite Happ. cbn.
  change (mkDBusMessage _ _ _ _ _) with (getMetadataCall player).
  now rewrite Hsend.
Qed.

(** C5: [extractPlayerName] is the identity on a name without the MPRIS
    prefix, and removes exactly the prefix from a name that has it. *)
Theorem extractPlayerName_spec (busName : string) :
  (starts_with busName prefix = false -> extractPlayerName busName = busName)
  /\ (forall rest : string,
        busName = prefix ++ rest -> extractPlayerName busName = rest).
Proof.
  unfold extractPlayerName. split.
  - now intros ->.
  - intros rest ->. rewrite starts_with_app. apply substr_app.
Qed.

Lemma extractPlayerName_spec_witness :
  extractPlayerName "org.freedesktop.DBus" = "org.freedesktop.DBus"
  /\ extractPlayerName "org.mpris.MediaPlayer2.vlc" = "vlc".
Proof.
  split.
  - apply (proj1 (extractPlayerName_spec "org.freedesktop.DBus")).
    reflexivity.
  - apply (proj2 (extractPlayerName_spec "org.mpris.MediaPlayer2.vlc") "vlc").
    reflexivity.
Defined.

(** C6: when the bus answers [ListNames] with the names [names], the
    discovery loop selects the first name of the list that carries the MPRIS
    prefix; the fetch continues with that player, and is [NotFound] when no
    name carries the prefix. *)
Theorem fetchNowPlaying_first_match (w : World) (names : list string) :
  allocations_succeed w -> lists_names w names ->
  discover w (mkConnection true) = Ok (find has_prefix names)
  /\ fetchNowPlaying w
     = match find has_prefix names with
       | Some player => retrieve w (mkConnection true) player
       | None => ERR NotFound "No active MPRIS players found"
       end.
Proof.
  intros Halloc Hnames. unfold fetchNowPlaying.
  destruct (discover_names w names Halloc Hnames) as [-> Hd]. cbn.
  now rewrite Hd.
Qed.

Lemma fetchNowPlaying_first_match_witness :
  let w :=
    busWorld
      ["org.freedesktop.DBus"; "org.mpris.MediaPlayer2.vlc";
       "org.mpris.MediaPlayer2.mpv"] (metadataReply [titleEntry "Song"]) in
  discover w (mkConnection true) = Ok (Some "org.mpris.MediaPlayer2.vlc")
  /\ fetchNowPlaying w
     = retrieve w (mkConnection true) "org.mpris.MediaPlayer2.vlc".
Proof.
  intros w.
  apply (fetchNowPlaying_first_match w
           ["org.freedesktop.DBus"; "org.mpris.MediaPlayer2.vlc";
            "org.mpris.MediaPlayer2.mpv"]).
  - split; intros; reflexivity.
  - split; reflexivity.
Defined.

Lemma permutation_of_three {A : Type} (a b c : A) (l : list A) :
  Permutation l [a; b; c] ->
  l = [a; b; c] \/ l = [a; c; b] \/ l = [b; a; c]
  \/ l = [b; c; a] \/ l = [c; a; b] \/ l = [c; b; a].
Proof.
  intros H. pose proof (Permutation_length H) as Hlen.
  destruct l as [| x [| y [| z [| t l]]]]; try discriminate Hlen.
  assert (Hx : In x [a; b; c]) by (apply (Permutation_in x H); now left).
  assert (Hrest : forall u v, Permutation [x; y; z] [x; u; v] ->
                              [y; z] = [u; v] \/ [y; z] = [v; u]).
  { intros u v Hp. apply Permutation_cons_inv in Hp.
    apply Permutation_sym, Permutation_length_2_inv in Hp.
    destruct Hp as [-> | ->]; auto. }
  destruct Hx as [<- | [<- | [<- | []]]].
  - destruct (Hrest b c H) as [E | E]; injection E as -> ->; auto.
  - assert (Hp : Permutation [b; y; z] [b; a; c])
      by (eapply Permutation_trans; [exact H | apply perm_swap]).
    destruct (Hrest a c Hp) as [E | E]; injection E as -> ->; auto 10.
  - assert (Hp : Permutation [c; y; z] [c; a; b]).
    { eapply Permutation_trans; [exact H |].
      eapply Permutation_trans; [apply perm_skip, perm_swap |].
      apply perm_swap. }
    destruct (Hrest a b Hp) as [E | E]; injection E as -> ->; auto 10.
Qed.

(** C1: on a bus whose only name is [org.mpris.MediaPlayer2.Foo] and whose
    metadata reply is a variant wrapping the dictionary entries
    xesam:title = Song, xesam:artist = [Band], xesam:album = Rec (in any
    order), the fetch succeeds with title Song, artist Band, album Rec
    and player name Foo. *)
Theorem fetchNowPlaying_Foo (w : World) (entries : list DBusArg) :
  allocations_succeed w ->
  lists_names w ["org.mpris.MediaPlayer2.Foo"] ->
  answers_metadata w "org.mpris.MediaPlayer2.Foo" (metadataReply entries) ->
  Permutation entries
    [titleEntry "Song"; artistEntry ["Band"]; albumEntry "Rec"] ->
  fetchNowPlaying w
  = Ok (mkMediaData (Some "Song") (Some "Band") (Some "Rec") (Some "Foo")).
Proof.
  intros Halloc Hnames Hmeta Hperm. unfold fetchNowPlaying.
  destruct (discover_names w _ Halloc Hnames) as [-> Hd].
  cbn [TRY]. rewrite Hd. cbn [TRY find].
  change (has_prefix "org.mpris.MediaPlayer2.Foo") with true. cbv iota.
  rewrite (retrieve_reply w _ _ Halloc Hmeta).
  destruct (permutation_of_three _ _ _ _ Hperm)
    as [-> | [-> | [-> | [-> | [-> | ->]]]]]; reflexivity.
Qed.

Lemma fetchNowPlaying_Foo_witness :
  fetchNowPlaying fooWorld
  = Ok (mkMediaData (Some "Song") (Some "Band") (Some "Rec") (Some "Foo")).
Proof.
  apply (fetchNowPlaying_Foo fooWorld
           [titleEntry "Song"; artistEntry ["Band"]; albumEntry "Rec"]).
  - split; intros; reflexivity.
  - split; reflexivity.
  - reflexivity.
  - apply Permutation_refl.
Defined.

Lemma basic_code_not_container (k : BasicKind) :
  basic_code k <> DBUS_TYPE_STRING /\ basic_code k <> DBUS_TYPE_VARIANT
  /\ basic_code k <> DBUS_TYPE_ARRAY /\ basic_code k <> DBUS_TYPE_DICT_ENTRY.
Proof. destruct k; repeat split; discriminate. Qed.

(** One turn of the metadata loop. *)
Lemma metadataLoop_cons (a : DBusArg) (rest : list DBusArg)
      (data : MediaData) :
  metadataLoop (a :: rest) data
  = if (arg_type a =? DBUS_TYPE_DICT_ENTRY)%Z
    then metadataLoop rest (entry_effect a data)
    else data.
Proof.
  assert (Hadv : forall d,
             (if fst (next (mkMessageIter (a :: rest) true))
              then metadataLoop rest d else d) = metadataLoop rest d)
    by (intros d; destruct rest; reflexivity).
  cbn [metadataLoop]. unfold entry_effect.
  change (getArgType (mkMessageIter (a :: rest) true)) with (arg_type a).
  destruct (arg_type a =? DBUS_TYPE_DICT_ENTRY)%Z; [| reflexivity].
  cbn [negb].
  change (recurse (mkMessageIter (a :: rest) true))
    with (recurse (mkMessageIter [a] true)).
  set (entryIter := recurse (mkMessageIter [a] true)).
  destruct (negb (isValid entryIter)); [apply Hadv |].
  destruct (getString entryIter) as [key |]; [| apply Hadv].
  destruct (next entryIter) as [moved entryIter'].
  destruct (negb moved
            || negb (getArgType entryIter' =? DBUS_TYPE_VARIANT)%Z);
    [apply Hadv |].
  cbv zeta. destruct (negb (isValid (recurse entryIter'))); apply Hadv.
Qed.

Lemma entry_effect_malformed (bad : DBusArg) (data : MediaData) :
  malformed_entry bad -> entry_effect bad data = data.
Proof.
  intros [| key rest Hkey | key | key value rest Hvalue].
  - reflexivity.
  - destruct key; try reflexivity.
    + cbn. destruct (basic_code_not_container k) as [Hs _].
      apply Z.eqb_neq in Hs. unfold entry_effect, getString. cbn.
      now rewrite Hs.
    + now elim (Hkey s).
  - unfold entry_effect. destruct (getString _); reflexivity.
  - unfold entry_effect. destruct (getString _); [| reflexivity].
    cbn. destruct value; try reflexivity.
    + destruct (basic_code_not_container k) as (_ & Hv & _).
      apply Z.eqb_neq in Hv. cbn [arg_type]. now rewrite Hv.
    + now elim (Hvalue value).
Qed.

Lemma metadataLoop_skip (before after : list DBusArg) (bad : DBusArg)
      (data : MediaData) :
  malformed_entry bad ->
  metadataLoop (before ++ bad :: after)%list data
  = metadataLoop (before ++ after)%list data.
Proof.
  intros Hbad. revert data.
  induction before as [| a before IH]; intros data; cbn [app].
  - rewrite metadataLoop_cons, (entry_effect_malformed _ _ Hbad).
    now destruct Hbad.
  - rewrite !metadataLoop_cons.
    destruct (arg_type a =? DBUS_TYPE_DICT_ENTRY)%Z; [apply IH | reflexivity].
Qed.

Lemma parseMetadata_shaped (r : DBusMessage) (entries more : list DBusArg)
      (data : MediaData) :
  msg_args r = DVariant (DArray DBUS_TYPE_DICT_ENTRY entries) :: more ->
  parseMetadata (mkMessage (Some r)) data = Ok (metadataLoop entries data).
Proof.
  intros Hargs. unfold parseMetadata, iterInit, dbus_message_iter_init.
  cbn [m_msg]. now rewrite Hargs.
Qed.

Lemma parseMetadata_not_shaped (r : DBusMessage) (data : MediaData) :
  ~ dictionary_shaped r ->
  exists msg, parseMetadata (mkMessage (Some r)) data = ERR ParseError msg.
Proof.
  intros Hshape. unfold parseMetadata, iterInit, dbus_message_iter_init.
  cbn [m_msg].
  destruct (msg_args r) as [| a more] eqn:Hargs; [cbn; eauto |].
  destruct a as [k | s | t items | v | fields | fields];
    try (cbn; eauto; fail).
  - cbn. destruct (basic_code_not_container k) as (_ & Hv & _).
    apply Z.eqb_neq in Hv. rewrite Hv. cbn. eauto.
  - destruct v as [k | s | t items | v | fields | fields];
      try (cbn; eauto; fail).
    + cbn. destruct (basic_code_not_container k) as (_ & _ & Ha & _).
      apply Z.eqb_neq in Ha. cbn [arg_type]. rewrite Ha. cbn. eauto.
    + destruct (Z.eqb_spec t DBUS_TYPE_DICT_ENTRY) as [-> | Ht].
      * elim Hshape. unfold dictionary_shaped. rewrite Hargs. eauto.
      * apply Z.eqb_neq in Ht. cbn.
        rewrite Ht. cbn. eauto.
Qed.

(** C3: in the metadata retrieval, a reply whose first argument is not a
    variant wrapping an array of dictionary entries gives [ParseError],
    whatever it holds; and inside a well-shaped reply an entry without a
    string key or without a variant value is passed over: the call
    succeeds with the record that the remaining entries give. *)
Theorem retrieve_reply_shape (w : World) (player : string) (r : DBusMessage) :
  allocations_succeed w -> answers_metadata w player r ->
  (~ dictionary_shaped r ->
   exists msg, retrieve w (mkConnection true) player = ERR ParseError msg)
  /\ (forall (before after more : list DBusArg) (bad : DBusArg),
        msg_args r
        = DVariant (DArray DBUS_TYPE_DICT_ENTRY (before ++ bad :: after)%list)
            :: more ->
        malformed_entry bad ->
        retrieve w (mkConnection true) player
        = Ok (metadataLoop (before ++ after)%list (initialData player))).
Proof.
  intros Halloc Hmeta. rewrite (retrieve_reply w player r Halloc Hmeta).
  split.
  - apply parseMetadata_not_shaped.
  - intros before after more bad Hargs Hbad.
    rewrite (parseMetadata_shaped r _ more _ Hargs).
    now rewrite (metadataLoop_skip before after bad _ Hbad).
Qed.

Lemma retrieve_reply_shape_witness :
  let vlc := "org.mpris.MediaPlayer2.vlc" in
  (exists msg,
      retrieve (busWorld [vlc] (reply [DString "xesam:title"; titleEntry "Song"]))
        (mkConnection true) vlc = ERR ParseError msg)
  /\ retrieve
       (busWorld [vlc]
          (metadataReply
             [DDictEntry [DBasic KInt32; DVariant (DString "Other")];
              titleEntry "Song"]))
       (mkConnection true) vlc
     = Ok (mkMediaData (Some "Song") None None (Some "vlc")).
Proof.
  intros vlc. split.
  - apply (proj1 (retrieve_reply_shape
                    (busWorld [vlc]
                       (reply [DString "xesam:title"; titleEntry "Song"]))
                    vlc (reply [DString "xesam:title"; titleEntry "Song"])
                    (conj (fun _ _ _ _ => eq_refl) (fun _ _ => eq_refl))
                    eq_refl)).
    intros (entries & more & H). discriminate H.
  - apply (proj2 (retrieve_reply_shape
                    (busWorld [vlc]
                       (metadataReply
                          [DDictEntry
                             [DBasic KInt32; DVariant (DString "Other")];
                           titleEntry "Song"]))
                    vlc _
                    (conj (fun _ _ _ _ => eq_refl) (fun _ _ => eq_refl))
                    eq_refl)
             [] [titleEntry "Song"] []
             (DDictEntry [DBasic KInt32; DVariant (DString "Other")])
             eq_refl).
    apply entry_key_not_string. intros s H. discriminate H.
Defined.

(** The strings [getString] gives are never empty. *)
Lemma getString_not_empty (it : MessageIter) : getString it <> Some "".
Proof.
  unfold getString.
  destruct (m_isValid it && (getArgType it =? DBUS_TYPE_STRING)%Z);
    [| discriminate].
  destruct (m_iter it) as [| [k | s | t items | v | fields | fields] rest];
    try discriminate.
  destruct s; cbn; discriminate.
Qed.

Lemma applyEntry_fields (key : string) (it : MessageIter) (data : MediaData) :
  title data <> Some "" -> artist data <> Some "" -> album data <> Some "" ->
  let data' := applyEntry key it data in
  title data' <> Some "" /\ artist data' <> Some "" /\ album data' <> Some ""
  /\ playerName data' = playerName data.
Proof.
  intros Ht Har Hal. unfold applyEntry.
  destruct (String.eqb key "xesam:title");
    [cbn; auto using getString_not_empty |].
  destruct (String.eqb key "xesam:album");
    [cbn; auto using getString_not_empty |].
  destruct (String.eqb key "xesam:artist"); [| cbn; auto].
  destruct (_ && _); [| cbn; auto].
  destruct (isValid _); cbn; auto using getString_not_empty.
Qed.

Lemma entry_effect_fields (a : DBusArg) (data : MediaData) :
  title data <> Some "" -> artist data <> Some "" -> album data <> Some "" ->
  let data' := entry_effect a data in
  title data' <> Some "" /\ artist data' <> Some "" /\ album data' <> Some ""
  /\ playerName data' = playerName data.
Proof.
  intros Ht Har Hal. unfold entry_effect.
  destruct (negb (isValid _)); [cbn; auto |].
  destruct (getString _) as [key |]; [| cbn; auto].
  destruct (next _) as [moved it']. destruct (_ || _); [cbn; auto |].
  cbv zeta. destruct (negb (isValid _)); [cbn; auto |].
  now apply applyEntry_fields.
Qed.

Lemma metadataLoop_fields (cur : list DBusArg) (data : MediaData) :
  title data <> Some "" -> artist data <> Some "" -> album data <> Some "" ->
  let data' := metadataLoop cur data in
  title data' <> Some "" /\ artist data' <> Some "" /\ album data' <> Some ""
  /\ playerName data' = playerName data.
Proof.
  revert data. induction cur as [| a cur IH]; intros data Ht Har Hal.
  - cbn; auto.
  - cbv zeta. rewrite metadataLoop_cons.
    destruct (arg_type a =? DBUS_TYPE_DICT_ENTRY)%Z; [| auto].
    destruct (entry_effect_fields a data Ht Har Hal) as (Ht' & Har' & Hal' & Hp).
    destruct (IH _ Ht' Har' Hal') as (? & ? & ? & Hp').
    repeat split; auto. now rewrite Hp'.
Qed.

(** The DBus backend gives no empty title, artist or album; its player
    name is empty only for the bus name that is the bare prefix, which is
    no valid bus name (a bus name does not end in a period). *)
Lemma dbus_no_empty_field (w : World) (data : MediaData) :
  fetchNowPlaying w = Ok data ->
  title data <> Some "" /\ artist data <> Some "" /\ album data <> Some ""
  /\ exists player,
      has_prefix player = true
      /\ playerName data = Some (extractPlayerName player).
Proof.
  unfold fetchNowPlaying.
  destruct (busGet w DBUS_BUS_SESSION) as [c | e]; [| discriminate].
  cbn [TRY]. destruct (discover w c) as [[player |] | e] eqn:Hd;
    try discriminate.
  cbn [TRY]. unfold retrieve.
  destruct (newMethodCall w player _ _ _) as [msg | e]; [| discriminate].
  cbn [TRY]. destruct (appendArgs w msg _) as [[|] msg']; [| discriminate].
  cbn [negb]. destruct (sendWithReplyAndBlock w c msg' 100) as [r | e];
    [| discriminate].
  cbn [TRY]. unfold parseMetadata.
  repeat match goal with
         | |- (if ?b then ERR _ _ else _) = Ok _ -> _ =>
             destruct b; [discriminate |]
         end.
  intros [= <-].
  destruct (metadataLoop_fields
              (m_iter (recurse (recurse (iterInit r))))
              (set_playerName MediaData_default
                 (Some (extractPlayerName player))))
    as (Ht & Har & Hal & Hp); try discriminate.
  repeat split; auto. exists player. split; [| exact Hp].
  revert Hd. unfold discover.
  destruct (newMethodCall w _ _ _ _) as [m |]; [| discriminate].
  cbn [TRY]. destruct (sendWithReplyAndBlock w c m 100) as [lr |];
    [| discriminate].
  cbn [TRY].
  repeat match goal with
         | |- (if ?b then ERR _ _ else _) = Ok _ -> _ =>
             destruct b; [discriminate |]
         end.
  intros [= Hfind]. revert Hfind.
  generalize (m_iter (recurse (iterInit lr))) as cur.
  induction cur as [| a cur IH]; [discriminate |].
  cbn [findActivePlayer].
  destruct (getArgType _ =? DBUS_TYPE_INVALID)%Z; [discriminate |].
  assert (Hadv : (if fst (next (mkMessageIter (a :: cur) true))
                  then findActivePlayer cur else None) = Some player ->
                 has_prefix player = true).
  { destruct (fst _); [exact IH | discriminate]. }
  cbv zeta. destruct (getString _) as [name |]; [| exact Hadv].
  destruct (starts_with name prefix) eqn:Hp'; [| exact Hadv].
  now intros [= <-].
Qed.

End DBusBackend.

(** ** The Windows backend *)

Section WindowsBackend.

Import npsm samples.

Lemma contains_here (s sub : string) :
  starts_with s sub = true -> contains s sub = true.
Proof. intros H. destruct s; cbn; now rewrite H. Qed.

Lemma contains_app (a b c : string) : contains (a ++ b ++ c) b = true.
Proof.
  induction a as [| x a IH].
  - apply contains_here. apply (starts_with_app b c).
  - cbn. rewrite IH. now destruct (starts_with _ _).
Qed.

(** Every failure before the property store is [ApiUnavailable] or
    [NotFound]; its message shows a status code in hexadecimal, except
    the one for a failed [GetMediaObjectInfo], which is a fixed text. *)
Lemma getPropertyStore_failure (w : World) (e : DracError) :
  getPropertyStore w = Err e ->
  (code e = ApiUnavailable \/ code e = NotFound)
  /\ (message e = "Failed to get media object info"
      \/ exists hr : HRESULT,
          contains (message e) ("0x" ++ format_08X (to_u32 hr)) = true).
Proof.
  unfold getPropertyStore.
  destruct (FAILED (CoCreateInstance w)).
  { intros [= <-]. split; [now left |]. right.
    exists (CoCreateInstance w).
    exact (contains_app
             "Failed to create NowPlayingSessionManager (HRESULT: "
             ("0x" ++ format_08X (to_u32 (CoCreateInstance w))) ")"). }
  destruct (get_CurrentSession w) as [hr1 sessionUnknown].
  destruct (FAILED hr1 || negb sessionUnknown).
  { intros [= <-]. split; [now right |]. right. exists hr1.
    exact (contains_app "No media session found (HRESULT: "
             ("0x" ++ format_08X (to_u32 hr1)) _). }
  destruct (FAILED (As_INowPlayingSession w)).
  { intros [= <-]. split; [now left |]. right.
    exists (As_INowPlayingSession w).
    exact (contains_app
             "Failed to get INowPlayingSession interface (HRESULT: "
             ("0x" ++ format_08X (to_u32 (As_INowPlayingSession w))) ")"). }
  destruct (ActivateMediaPlaybackDataSource w) as [hr2 dataSourceUnknown].
  destruct (FAILED hr2 || negb dataSourceUnknown).
  { intros [= <-]. split; [now left |]. right. exists hr2.
    exact (contains_app
             "Failed to activate MediaPlaybackDataSource (HRESULT: "
             ("0x" ++ format_08X (to_u32 hr2)) ")"). }
  assert (Hfinish : forall answer : HRESULT * option IPropertyStore,
             match answer with
             | (result, Some propStore) =>
                 if FAILED result
                 then ERR ApiUnavailable "Failed to get media object info"
                 else Ok propStore
             | (_, None) => ERR ApiUnavailable "Failed to get media object info"
             end = Err e ->
             (code e = ApiUnavailable \/ code e = NotFound)
             /\ (message e = "Failed to get media object info"
                 \/ exists hr : HRESULT,
                     contains (message e) ("0x" ++ format_08X (to_u32 hr))
                     = true)).
  { intros [hr [propStore |]]; [destruct (FAILED hr) |];
      intros [= <-]; split; now left. }
  cbv zeta. destruct (SUCCEEDED (As_IMediaPlaybackDataSource2 w));
    [apply Hfinish |].
  destruct (FAILED (As_IMediaPlaybackDataSource w)); [| apply Hfinish].
  intros [= <-]. split; [now left |]. right.
  exists (As_IMediaPlaybackDataSource w).
  exact (contains_app
           "Failed to get IMediaPlaybackDataSource interface (HRESULT: "
           ("0x" ++ format_08X (to_u32 (As_IMediaPlaybackDataSource w)))
           ")").
Qed.

(** C2: when [GetMediaObjectInfo] fails, the error is [ApiUnavailable]
    with the fixed text "Failed to get media object info", whatever the
    status code: the code is not in the message (for [E_FAIL] the message
    does not hold 80004005). *)
Theorem GetMediaObjectInfo_failure_hides_status :
  (forall hr : HRESULT,
      FetchNowPlaying (sessionWorld (hr, None))
      = ERR ApiUnavailable "Failed to get media object info")
  /\ format_08X (to_u32 E_FAIL) = "80004005"
  /\ contains "Failed to get media object info"
       (format_08X (to_u32 E_FAIL)) = false.
Proof.
  split; [intros hr; reflexivity |].
  split; vm_compute; reflexivity.
Qed.

Lemma readProperty_unusable (w : World) (propStore : IPropertyStore)
      (key : PROPERTYKEY) :
  lookup_unusable propStore key -> readProperty w propStore key = None.
Proof.
  unfold lookup_unusable, readProperty, SUCCEEDED, FAILED.
  destruct (GetValue propStore key) as [hr pVar]. cbn [fst snd].
  intros [Hhr | [Hvt | Hnull]].
  - apply Z.ltb_lt in Hhr.
    destruct (Z.leb_spec 0 hr) as [Hle |]; [lia | reflexivity].
  - apply Z.eqb_neq in Hvt. rewrite Hvt. now rewrite andb_false_r.
  - rewrite Hnull. now destruct (_ && _).
Qed.

Lemma readProperty_None (w : World) (propStore : IPropertyStore)
      (key : PROPERTYKEY) :
  readProperty w propStore key = None
  <-> lookup_unusable propStore key \/ lookup_empty w propStore key.
Proof.
  split.
  - unfold lookup_unusable, lookup_empty, readProperty, SUCCEEDED, FAILED.
    destruct (GetValue propStore key) as [hr pVar]. cbn [fst snd].
    destruct (Z.leb_spec 0 hr) as [Hle | Hlt];
      [| intros _; left; left; now apply Z.ltb_lt].
    destruct (Z.eqb_spec (vt pVar) VT_LPWSTR) as [Hvt | Hvt];
      [| intros _; left; right; now left].
    cbn [andb].
    destruct (pwszVal pVar) as [wstr |]; [| intros _; left; right; now right].
    intros H. right. exists wstr. split; [reflexivity |].
    destruct (ConvertWStringToUTF8 w wstr) as [str | e]; [| eauto].
    destruct str; [now left | discriminate H].
  - intros [H | (wstr & Hw & Hconv)]; [now apply readProperty_unusable |].
    unfold readProperty.
    destruct (GetValue propStore key) as [hr pVar]. cbn [fst snd] in Hw.
    rewrite Hw. destruct (_ && _); [| reflexivity].
    destruct Hconv as [-> | [e ->]]; reflexivity.
Qed.

Lemma readMediaData_fields (w : World) (propStore : IPropertyStore) :
  let data := readMediaData w propStore in
  title data = readProperty w propStore PKEY_Title
  /\ artist data = readProperty w propStore PKEY_Music_Artist
  /\ album data = readProperty w propStore PKEY_Music_AlbumTitle
  /\ playerName data = None.
Proof.
  unfold readMediaData, assign_if.
  destruct (readProperty w propStore PKEY_Title),
    (readProperty w propStore PKEY_Music_Artist),
    (readProperty w propStore PKEY_Music_AlbumTitle); cbn; auto.
Qed.

Lemma readProperty_Some (w : World) (propStore : IPropertyStore)
      (key : PROPERTYKEY) (text : string) :
  readProperty w propStore key = Some text
  <-> lookup_text w propStore key text.
Proof.
  unfold lookup_text, readProperty, SUCCEEDED, FAILED.
  destruct (GetValue propStore key) as [hr pVar]. cbn [fst snd]. split.
  - destruct (Z.leb_spec 0 hr) as [Hle | Hlt]; [| discriminate].
    destruct (Z.eqb_spec (vt pVar) VT_LPWSTR) as [Hvt | Hvt];
      [| discriminate].
    cbn [andb]. destruct (pwszVal pVar) as [wstr |]; [| discriminate].
    destruct (ConvertWStringToUTF8 w wstr) as [str | e] eqn:Hconv;
      [| discriminate].
    destruct str as [| c str]; [discriminate |]. intros [= <-].
    split; [apply Z.ltb_ge; lia |]. split; [exact Hvt |].
    exists wstr. repeat split; [exact Hconv | discriminate].
  - intros (Hhr & Hvt & wstr & Hw & Hconv & Hne).
    apply Z.ltb_ge in Hhr. apply Z.leb_le in Hhr. rewrite Hhr, Hvt, Hw, Hconv.
    rewrite Z.eqb_refl. cbn [andb].
    destruct text; [now elim Hne | reflexivity].
Qed.

(** C4: once the property store is there the call succeeds, whatever
    the three lookups give, and each field is the outcome of its own
    lookup alone: title, artist and album are present with a text exactly
    when the lookup of their own key succeeds with a non-null wide string
    that converts to that non-empty text.  Hence artist and album are
    absent when their lookup fails, has another type or is null, whatever
    the other lookups give, and the title is absent exactly when its
    lookup is unusable or empty. *)
Theorem FetchNowPlaying_reads_independently
        (w : World) (propStore : IPropertyStore) :
  getPropertyStore w = Ok propStore ->
  exists data,
    FetchNowPlaying w = Ok data
    /\ title data = readProperty w propStore PKEY_Title
    /\ artist data = readProperty w propStore PKEY_Music_Artist
    /\ album data = readProperty w propStore PKEY_Music_AlbumTitle
    /\ playerName data = None
    /\ (forall text,
          title data = Some text <-> lookup_text w propStore PKEY_Title text)
    /\ (forall text,
          artist data = Some text
          <-> lookup_text w propStore PKEY_Music_Artist text)
    /\ (forall text,
          album data = Some text
          <-> lookup_text w propStore PKEY_Music_AlbumTitle text)
    /\ (lookup_unusable propStore PKEY_Music_Artist -> artist data = None)
    /\ (lookup_unusable propStore PKEY_Music_AlbumTitle -> album data = None)
    /\ (title data = None
        <-> lookup_unusable propStore PKEY_Title
            \/ lookup_empty w propStore PKEY_Title).
Proof.
  intros Hstore. exists (readMediaData w propStore).
  destruct (readMediaData_fields w propStore) as (Ht & Har & Hal & Hp).
  unfold FetchNowPlaying. rewrite Hstore. cbn [TRY].
  split; [reflexivity |]. rewrite Ht, Har, Hal.
  repeat (split; [reflexivity || exact Hp |]).
  repeat (split; [intros text; apply readProperty_Some |]).
  split; [| split].
  - now apply readProperty_unusable.
  - now apply readProperty_unusable.
  - apply readProperty_None.
Qed.

Lemma FetchNowPlaying_reads_independently_witness :
  (exists data,
      FetchNowPlaying
        (sessionWorld (S_OK, Some (store (lpwstr "Song") missing (lpwstr ""))))
      = Ok data
      /\ title data = Some "Song" /\ artist data = None)
  /\ (exists data,
        FetchNowPlaying
          (sessionWorld
             (S_OK, Some (store (lpwstr "Song") (lpwstr "Band") missing)))
        = Ok data
        /\ title data = Some "Song" /\ artist data = Some "Band"
        /\ album data = None).
Proof.
  split.
  - destruct (FetchNowPlaying_reads_independently
                (sessionWorld
                   (S_OK, Some (store (lpwstr "Song") missing (lpwstr ""))))
                (store (lpwstr "Song") missing (lpwstr "")) eq_refl)
      as (data & Hfetch & Ht & _ & _ & _ & _ & _ & _ & Har & _).
    exists data. split; [exact Hfetch |]. split; [exact Ht |].
    apply Har. left. reflexivity.
  - destruct (FetchNowPlaying_reads_independently
                (sessionWorld
                   (S_OK, Some (store (lpwstr "Song") (lpwstr "Band") missing)))
                (store (lpwstr "Song") (lpwstr "Band") missing) eq_refl)
      as (data & Hfetch & Ht & _ & _ & _ & _ & Har & _ & _ & Hal & _).
    exists data. split; [exact Hfetch |]. split; [exact Ht |]. split.
    + apply Har. split; [reflexivity |]. split; [reflexivity |].
      exists (wstring_of "Band"). repeat split. discriminate.
    + apply Hal. left. reflexivity.
Defined.

(** C10: the empty wide string converts to the empty string without any
    call of [WideCharToMultiByte]; a conversion that ends in an error
    ends in [InternalError] and had a non-empty input. *)
Theorem ConvertWStringToUTF8_empty (w : World) :
  ConvertWStringToUTF8_traced w [] = (Ok "", [])
  /\ (forall (wstr : WString) (e : DracError),
        ConvertWStringToUTF8 w wstr = Err e ->
        code e = InternalError /\ wstr <> []).
Proof.
  split; [reflexivity |].
  intros wstr e. unfold ConvertWStringToUTF8, ConvertWStringToUTF8_traced.
  destruct wstr as [| u wstr]; [discriminate |].
  destruct (_ =? 0)%Z; [intros [= <-]; now split |].
  destruct (_ =? 0)%Z; [intros [= <-]; now split | discriminate].
Qed.

Lemma ConvertWStringToUTF8_empty_witness :
  code (mkDracError InternalError
          "Failed to get buffer size for UTF-8 conversion. Error code: 1113")
  = InternalError
  /\ [65%Z] <> [].
Proof.
  apply (proj2 (ConvertWStringToUTF8_empty failingConversionWorld) [65%Z]).
  reflexivity.
Defined.

Lemma write_buffer_length (buf out : string) :
  String.length (write_buffer buf out) = String.length buf.
Proof.
  revert out. induction buf as [| b buf IH]; intros out; [reflexivity |].
  destruct out; cbn; [reflexivity | now rewrite IH].
Qed.

Lemma readProperty_not_empty (w : World) (propStore : IPropertyStore)
      (key : PROPERTYKEY) :
  readProperty w propStore key <> Some "".
Proof.
  unfold readProperty. destruct (GetValue propStore key) as [hr pVar].
  destruct (_ && _); [| discriminate].
  destruct (pwszVal pVar); [| discriminate].
  destruct (ConvertWStringToUTF8 w _) as [[| c str] | e]; discriminate.
Qed.

(** The Windows backend gives no empty field. *)
Lemma npsm_no_empty_field (w : World) (data : MediaData) :
  FetchNowPlaying w = Ok data -> no_empty_field data.
Proof.
  unfold FetchNowPlaying.
  destruct (getPropertyStore w) as [propStore | e]; [| discriminate].
  intros [= <-].
  destruct (readMediaData_fields w propStore) as (Ht & Har & Hal & Hp).
  unfold no_empty_field. rewrite Ht, Har, Hal, Hp.
  repeat split; try apply readProperty_not_empty. discriminate.
Qed.

End WindowsBackend.

(** ** The macOS backend *)

Section MacBackend.

Import macos samples.

(** C7: with the helper found and its output captured, an empty output,
    [null] and [null] followed by a newline give [NotFound]; so does an
    output read as a record with an empty title; and another output read
    as a record with a title gives that title, with artist and album
    present exactly when their text is not empty. *)
Theorem fetchViaMediaControl_output (w : World) (path output : string) :
  getMediaControlPath w = Some path ->
  popen w (path ++ " get 2>/dev/null") = Some output ->
  (output = "" \/ output = "null" \/ output = "null" ++ newline ->
   fetchViaMediaControl w = ERR NotFound "No media is currently playing")
  /\ (forall parsed : MediaControlOutput,
        glz_read w output = Some parsed ->
        mc_title parsed = "" ->
        fetchViaMediaControl w = ERR NotFound "No media is currently playing")
  /\ (forall parsed : MediaControlOutput,
        output <> "" -> output <> "null" -> output <> "null" ++ newline ->
        glz_read w output = Some parsed ->
        mc_title parsed <> "" ->
        fetchViaMediaControl w
        = Ok (mkMediaData (Some (mc_title parsed))
                (present_if_nonempty (mc_artist parsed))
                (present_if_nonempty (mc_album parsed)) None)).
Proof.
  intros Hpath Hout. unfold fetchViaMediaControl. rewrite Hpath, Hout.
  split; [| split].
  - intros [-> | [-> | ->]]; reflexivity.
  - intros parsed Hread Htitle.
    destruct (_ || _); [reflexivity |].
    now rewrite Hread, Htitle.
  - intros parsed Hne Hnull Hnl Hread Htitle.
    apply empty_false in Hne. apply String.eqb_neq in Hnull, Hnl.
    rewrite Hne, Hnull, Hnl. cbn [orb]. rewrite Hread.
    apply empty_false in Htitle. rewrite Htitle.
    destruct (mc_artist parsed), (mc_album parsed); reflexivity.
Qed.

Lemma fetchViaMediaControl_output_witness :
  fetchViaMediaControl (helperWorld ("null" ++ newline) (fun _ => None))
  = ERR NotFound "No media is currently playing"
  /\ fetchViaMediaControl
       (helperWorld "{}"
          (fun _ => Some (mkMediaControlOutput "Song" "Band" "" true)))
     = Ok (mkMediaData (Some "Song") (Some "Band") None None).
Proof.
  split.
  - apply (proj1 (fetchViaMediaControl_output
                    (helperWorld ("null" ++ newline) (fun _ => None))
                    "/opt/homebrew/bin/media-control" ("null" ++ newline)
                    eq_refl eq_refl)).
    right; right; reflexivity.
  - apply (proj2 (proj2 (fetchViaMediaControl_output
                    (helperWorld "{}"
                       (fun _ =>
                          Some (mkMediaControlOutput "Song" "Band" "" true)))
                    "/opt/homebrew/bin/media-control" "{}"
                    eq_refl eq_refl))
             (mkMediaControlOutput "Song" "Band" "" true));
      try reflexivity; discriminate.
Defined.

(** The subprocess fallback gives no empty field. *)
Lemma fetchViaMediaControl_no_empty_field (w : World) (data : MediaData) :
  fetchViaMediaControl w = Ok data -> no_empty_field data.
Proof.
  unfold fetchViaMediaControl.
  destruct (getMediaControlPath w); [| discriminate].
  destruct (popen w _); [| discriminate].
  destruct (_ || _); [discriminate |].
  destruct (glz_read w _) as [[t ar al pl] |]; [| discriminate].
  cbn [mc_title mc_artist mc_album].
  destruct t; [discriminate |]. destruct ar, al; intros [= <-];
    repeat split; discriminate.
Qed.

(** C8: on the native macOS path a dictionary whose title is the empty
    string gives a successful record whose title is present and empty. *)
Theorem native_empty_title_is_present :
  fetchNowPlaying
    (nativeWorld (Some [("kMRMediaRemoteNowPlayingInfoTitle", "")]))
  = Some (Ok (mkMediaData (Some "") None None None)).
Proof. reflexivity. Qed.

End MacBackend.

(** ** The DBus backend: discovery, metadata entries and failures *)

Section DBusWalk.

Import dbus samples terms.

Lemma arg_type_valid (a : DBusArg) : arg_type a <> DBUS_TYPE_INVALID.
Proof. destruct a as [k | | | | |]; try discriminate. destruct k; discriminate. Qed.

Lemma findActivePlayer_cons_other (a : DBusArg) (rest : list DBusArg) :
  (forall s, a <> DString s) ->
  findActivePlayer (a :: rest) = findActivePlayer rest.
Proof.
  intros Ha. cbn [findActivePlayer].
  change (getArgType (mkMessageIter (a :: rest) true)) with (arg_type a).
  pose proof (arg_type_valid a) as Hv. apply Z.eqb_neq in Hv. rewrite Hv.
  assert (Hs : getString (mkMessageIter (a :: rest) true) = None).
  { unfold getString. cbn [m_isValid m_iter andb].
    destruct a as [k | s | t items | v | fields | fields]; try reflexivity.
    - destruct (getArgType _ =? DBUS_TYPE_STRING)%Z; reflexivity.
    - now elim (Ha s). }
  cbv zeta. rewrite Hs. destruct rest; reflexivity.
Qed.

(** X1: the discovery loop passes over the elements that are no strings
    (and over empty strings) without stopping: it selects the first string
    of the array that carries the MPRIS prefix. *)
Theorem findActivePlayer_string_items (cur : list DBusArg) :
  findActivePlayer cur = find has_prefix (string_items cur).
Proof.
  induction cur as [| a cur IH]; [reflexivity |].
  destruct a as [k | s | t items | v | fields | fields];
    try (rewrite findActivePlayer_cons_other by discriminate; exact IH).
  rewrite findActivePlayer_cons_string. cbn [string_items find].
  now rewrite IH.
Qed.

Lemma send_connected (w : World) (raw : DBusMessage) (timeout : Z) :
  sendWithReplyAndBlock w (mkConnection true) (mkMessage (Some raw)) timeout
  = match dbus_connection_send_with_reply_and_block w raw timeout with
    | SendReply r => Ok (mkMessage (Some r))
    | outcome =>
        match transport_error outcome with
        | Some e => Err e
        | None => ERR InvalidArgument "Invalid connection or message"
        end
    end.
Proof.
  unfold sendWithReplyAndBlock. cbn [m_conn m_msg].
  now destruct (dbus_connection_send_with_reply_and_block w raw timeout).
Qed.

Lemma appendArgs_fold_false (w : World) (args : list string)
      (raw : DBusMessage) :
  appendArgs_fold w false raw args = (false, raw).
Proof. induction args as [| arg args IH]; [reflexivity | exact IH]. Qed.

Lemma appendArgs_fold_all (w : World) (args : list string) :
  (forall raw arg, dbus_message_iter_append_basic w raw arg = true) ->
  forall raw, appendArgs_fold w true raw args = (true, with_strings raw args).
Proof.
  intros Happ. induction args as [| arg args IH]; intros raw.
  - cbn. unfold with_strings. cbn [map]. rewrite app_nil_r. now destruct raw.
  - cbn [appendArgs_fold]. unfold appendArgInternal. rewrite Happ, IH.
    unfold with_strings. cbn [msg_destination msg_path msg_interface
                                msg_member msg_args map].
    now rewrite <- app_assoc.
Qed.

(** X2: when no append fails, [appendArgs] adds exactly the given strings,
    in order, after the arguments the message has, and reports success;
    when the first append fails it reports failure, whatever the later
    appends would do. *)
Theorem appendArgs_outcome (w : World) (raw : DBusMessage)
        (arg : string) (args : list string) :
  ((forall raw' arg', dbus_message_iter_append_basic w raw' arg' = true) ->
   appendArgs w (mkMessage (Some raw)) (arg :: args)
   = (true, mkMessage (Some (with_strings raw (arg :: args)))))
  /\ (dbus_message_iter_append_basic w raw arg = false ->
      fst (appendArgs w (mkMessage (Some raw)) (arg :: args)) = false).
Proof.
  unfold appendArgs. cbn [m_msg]. split.
  - intros Happ. now rewrite (appendArgs_fold_all w (arg :: args) Happ).
  - intros Hfail. cbn [appendArgs_fold]. unfold appendArgInternal.
    rewrite Hfail. now rewrite appendArgs_fold_false.
Qed.

Lemma appendArgs_outcome_witness :
  appendArgs fooWorld
    (mkMessage
       (Some (mkDBusMessage "org.mpris.MediaPlayer2.Foo"
                "/org/mpris/MediaPlayer2" "org.freedesktop.DBus.Properties"
                "Get" [])))
    ["org.mpris.MediaPlayer2.Player"; "Metadata"]
  = (true, mkMessage (Some (getMetadataCall "org.mpris.MediaPlayer2.Foo")))
  /\ fst (appendArgs (scriptedBus SendNull SendNull false)
            (mkMessage (Some listNamesCall)) ["Player"; "Metadata"])
     = false.
Proof.
  split.
  - apply (proj1 (appendArgs_outcome fooWorld
                    (mkDBusMessage "org.mpris.MediaPlayer2.Foo"
                       "/org/mpris/MediaPlayer2"
                       "org.freedesktop.DBus.Properties" "Get" [])
                    "org.mpris.MediaPlayer2.Player" ["Metadata"])).
    intros; reflexivity.
  - apply (proj2 (appendArgs_outcome (scriptedBus SendNull SendNull false)
                    listNamesCall "Player" ["Metadata"])).
    reflexivity.
Defined.

Lemma getString_single (v : DBusArg) :
  getString (mkMessageIter [v] true) = string_value v.
Proof.
  destruct v as [k | s | t items | x | fields | fields]; try reflexivity.
  - unfold getString. cbn [m_isValid m_iter andb].
    destruct (getArgType _ =? DBUS_TYPE_STRING)%Z; reflexivity.
  - destruct s; reflexivity.
Qed.

Lemma entry_effect_entry (c : ascii) (key : string) (v : DBusArg)
      (data : MediaData) :
  entry_effect (entry (String c key) v) data
  = applyEntry (String c key) (mkMessageIter [v] true) data.
Proof. reflexivity. Qed.

(** X3: an entry [xesam:title] (or [xesam:album]) writes the field
    whatever its value is: a non-empty string sets the field, and any
    other value (an empty string, a number, an array) clears what an
    earlier entry had set. *)
Theorem metadataLoop_title_album (v : DBusArg) (rest : list DBusArg)
        (data : MediaData) :
  metadataLoop (entry "xesam:title" v :: rest) data
  = metadataLoop rest (set_title data (string_value v))
  /\ metadataLoop (entry "xesam:album" v :: rest) data
     = metadataLoop rest (set_album data (string_value v)).
Proof.
  rewrite !metadataLoop_cons. cbn [entry arg_type]. rewrite Z.eqb_refl.
  split.
  - rewrite (entry_effect_entry "x" "esam:title"). unfold applyEntry.
    cbn [String.eqb Ascii.eqb Bool.eqb]. now rewrite getString_single.
  - rewrite (entry_effect_entry "x" "esam:album"). unfold applyEntry.
    change (String.eqb "xesam:album" "xesam:title") with false.
    change (String.eqb "xesam:album" "xesam:album") with true. cbv iota.
    now rewrite getString_single.
Qed.

(** X4: of an [xesam:artist] array of strings only the first element
    counts: the artist is that string when it is not empty, and absent
    when it is empty or when the array is empty, whatever follows. *)
Theorem metadataLoop_first_artist (artists : list string)
        (rest : list DBusArg) (data : MediaData) :
  metadataLoop (artistEntry artists :: rest) data
  = metadataLoop rest
      (set_artist data
         match artists with
         | first :: _ => present_if_nonempty first
         | [] => None
         end).
Proof.
  rewrite metadataLoop_cons. cbn [artistEntry arg_type]. rewrite Z.eqb_refl.
  f_equal. destruct artists as [| [| c first] others]; reflexivity.
Qed.

(** X5: an entry whose key is none of the three recognised keys changes
    nothing, and neither does an [xesam:artist] entry whose value is no
    array of strings (the artist an earlier entry set is kept). *)
Theorem metadataLoop_unchanged (key : string) (v : DBusArg)
        (rest : list DBusArg) (data : MediaData) :
  (key <> "xesam:title" -> key <> "xesam:album" -> key <> "xesam:artist" ->
   metadataLoop (entry key v :: rest) data = metadataLoop rest data)
  /\ ((forall items, v <> DArray DBUS_TYPE_STRING items) ->
      metadataLoop (entry "xesam:artist" v :: rest) data
      = metadataLoop rest data).
Proof.
  rewrite !metadataLoop_cons. cbn [entry arg_type]. rewrite Z.eqb_refl.
  split.
  - intros Ht Hal Har. f_equal. destruct key as [| c key]; [reflexivity |].
    rewrite entry_effect_entry. unfold applyEntry.
    apply String.eqb_neq in Ht, Hal, Har. now rewrite Ht, Hal, Har.
  - intros Hv. f_equal. rewrite (entry_effect_entry "x" "esam:artist").
    unfold applyEntry.
    change (String.eqb "xesam:artist" "xesam:title") with false.
    change (String.eqb "xesam:artist" "xesam:album") with false.
    change (String.eqb "xesam:artist" "xesam:artist") with true. cbv iota.
    destruct v as [k | s | t items | x | fields | fields]; try reflexivity.
    + cbn [getArgType m_isValid m_iter dbus_message_iter_get_arg_type arg_type].
      destruct (basic_code_not_container k) as (_ & _ & Ha & _).
      apply Z.eqb_neq in Ha. now rewrite Ha.
    + destruct (Z.eqb_spec t DBUS_TYPE_STRING) as [-> | Hne];
        [now elim (Hv items) |].
      apply Z.eqb_neq in Hne.
      cbn [getArgType getElementType m_isValid m_iter
             dbus_message_iter_get_arg_type
             dbus_message_iter_get_element_type arg_type].
      now rewrite Hne, andb_false_r.
Qed.

Lemma metadataLoop_unchanged_witness :
  metadataLoop [entry "mpris:length" (DBasic KInt64); titleEntry "Song"]
    MediaData_default
  = metadataLoop [titleEntry "Song"] MediaData_default
  /\ metadataLoop [entry "xesam:artist" (DString "Solo")]
       (mkMediaData None (Some "Band") None None)
     = mkMediaData None (Some "Band") None None.
Proof.
  split.
  - apply (proj1 (metadataLoop_unchanged "mpris:length" (DBasic KInt64)
                    [titleEntry "Song"] MediaData_default));
      discriminate.
  - apply (proj2 (metadataLoop_unchanged "mpris:length" (DString "Solo") []
                    (mkMediaData None (Some "Band") None None))).
    discriminate.
Defined.

Ltac failure_code :=
  intros [= <-]; cbn [code In]; tauto.

Lemma send_connected_codes (w : World) (raw : DBusMessage) (timeout : Z)
      (e : DracError) :
  sendWithReplyAndBlock w (mkConnection true) (mkMessage (Some raw)) timeout
  = Err e ->
  code e = PlatformSpecific \/ code e = ApiUnavailable.
Proof.
  rewrite send_connected.
  destruct (dbus_connection_send_with_reply_and_block w raw timeout);
    intros [= <-]; cbn; auto.
Qed.

(** X6: a failed DBus fetch has one of six codes: [ApiUnavailable],
    [OutOfMemory], [PlatformSpecific], [ParseError], [NotFound] or
    [InternalError]; the [InvalidArgument] of [sendWithReplyAndBlock] is
    never reached, since the fetch sends only on the connection and the
    messages it has just obtained. *)
Theorem fetchNowPlaying_error_codes (w : World) (e : DracError) :
  fetchNowPlaying w = Err e ->
  In (code e)
     [ApiUnavailable; OutOfMemory; PlatformSpecific; ParseError; NotFound;
      InternalError].
Proof.
  unfold fetchNowPlaying, busGet.
  destruct (dbus_bus_get w DBUS_BUS_SESSION); try failure_code.
  cbn [TRY]. unfold discover, newMethodCall.
  destruct (dbus_message_new_method_call w _ _ _ _); [| failure_code].
  cbn [TRY].
  destruct (sendWithReplyAndBlock w _ _ 100) as [listNamesReply | e1] eqn:Hs1.
  2: { intros [= <-]. apply send_connected_codes in Hs1.
       destruct Hs1 as [-> | ->]; cbn [In]; tauto. }
  cbn [TRY]. destruct (_ || _); [failure_code |].
  destruct (negb _); [failure_code |]. cbn [TRY].
  destruct (findActivePlayer _) as [player |]; [| failure_code].
  unfold retrieve, newMethodCall.
  destruct (dbus_message_new_method_call w player _ _ _); [| failure_code].
  cbn [TRY]. unfold appendArgs. cbn [m_msg].
  destruct (appendArgs_fold w true _ _) as [[|] raw]; cbv beta iota;
    cbn [negb]; [| failure_code].
  clear Hs1.
  destruct (sendWithReplyAndBlock w _ _ 100) as [reply | e2] eqn:Hs2.
  2: { cbn [TRY]. intros [= <-]. apply send_connected_codes in Hs2.
       destruct Hs2 as [-> | ->]; cbn [In]; tauto. }
  cbn [TRY]. unfold parseMetadata.
  repeat match goal with
         | |- (if ?b then ERR _ _ else _) = Err _ -> _ =>
             destruct b; [failure_code |]
         end.
  discriminate.
Qed.

Lemma fetchNowPlaying_error_codes_witness :
  In NotFound
     [ApiUnavailable; OutOfMemory; PlatformSpecific; ParseError; NotFound;
      InternalError].
Proof.
  apply (fetchNowPlaying_error_codes
           (busWorld ["org.freedesktop.DBus"] (reply []))
           (mkDracError NotFound "No active MPRIS players found")).
  reflexivity.
Defined.

Lemma retrieve_send (w : World) (player : string) :
  allocations_succeed w ->
  retrieve w (mkConnection true) player
  = TRY (sendWithReplyAndBlock w (mkConnection true)
           (mkMessage (Some (getMetadataCall player))) 100)
      (fun reply => parseMetadata reply (initialData player)).
Proof.
  intros [Hnew Happ]. unfold retrieve, newMethodCall.
  rewrite Hnew. cbn [TRY]. unfold appendArgs. cbn [m_msg].
  rewrite (appendArgs_fold_all w _ Happ). reflexivity.
Qed.

Lemma transport_error_send (w : World) (raw : DBusMessage) (timeout : Z)
      (e : DracError) :
  transport_error (dbus_connection_send_with_reply_and_block w raw timeout)
  = Some e ->
  sendWithReplyAndBlock w (mkConnection true) (mkMessage (Some raw)) timeout
  = Err e.
Proof.
  rewrite send_connected.
  destruct (dbus_connection_send_with_reply_and_block w raw timeout);
    cbn; intros [= <-]; reflexivity.
Qed.

(** X7: a transport failure ends the fetch with its own error at each
    stage.  Without a connection the fetch is [ApiUnavailable]; a bus error
    on [ListNames] or on [Properties.Get] comes back as [PlatformSpecific]
    with the text of the bus after "DBus error: ", and a null reply as
    [ApiUnavailable]. *)
Theorem fetchNowPlaying_transport_failures (w : World) (e : DracError) :
  allocations_succeed w ->
  (dbus_bus_get w DBUS_BUS_SESSION <> BusGetConnection ->
   exists msg, fetchNowPlaying w = ERR ApiUnavailable msg)
  /\ (dbus_bus_get w DBUS_BUS_SESSION = BusGetConnection ->
      transport_error
        (dbus_connection_send_with_reply_and_block w listNamesCall 100)
      = Some e ->
      fetchNowPlaying w = Err e)
  /\ (forall (names : list string) (player : string),
        lists_names w names ->
        find has_prefix names = Some player ->
        transport_error
          (dbus_connection_send_with_reply_and_block w
             (getMetadataCall player) 100)
        = Some e ->
        fetchNowPlaying w = Err e).
Proof.
  intros Halloc. split; [| split].
  - intros Hbus. unfold fetchNowPlaying, busGet.
    destruct (dbus_bus_get w DBUS_BUS_SESSION);
      [eexists; reflexivity | eexists; reflexivity | now elim Hbus].
  - intros Hbus Herr. unfold fetchNowPlaying, busGet. rewrite Hbus.
    cbn [TRY]. unfold discover, newMethodCall.
    rewrite (proj1 Halloc). cbn [TRY].
    change (mkDBusMessage _ _ _ _ []) with listNamesCall.
    now rewrite (transport_error_send w _ _ e Herr).
  - intros names player Hnames Hfind Herr. unfold fetchNowPlaying.
    destruct (discover_names w names Halloc Hnames) as [-> Hd].
    cbn [TRY]. rewrite Hd, Hfind. cbn [TRY].
    rewrite (retrieve_send w player Halloc).
    now rewrite (transport_error_send w _ _ e Herr).
Qed.

Lemma fetchNowPlaying_transport_failures_witness :
  (exists msg,
      fetchNowPlaying
        (mkWorld (fun _ => BusGetError "no session bus") (fun _ _ _ _ => true)
           (fun _ _ => true) (fun _ _ => SendNull))
      = ERR ApiUnavailable msg)
  /\ fetchNowPlaying (scriptedBus (SendError "Timeout") SendNull true)
     = ERR PlatformSpecific "DBus error: Timeout"
  /\ fetchNowPlaying
       (scriptedBus (SendReply (namesReply ["org.mpris.MediaPlayer2.vlc"]))
          SendNull true)
     = ERR ApiUnavailable "DBus returned null without error".
Proof.
  split; [| split].
  - apply (proj1 (fetchNowPlaying_transport_failures
                    (mkWorld (fun _ => BusGetError "no session bus")
                       (fun _ _ _ _ => true) (fun _ _ => true)
                       (fun _ _ => SendNull))
                    (mkDracError NotFound "")
                    (conj (fun _ _ _ _ => eq_refl) (fun _ _ => eq_refl)))).
    discriminate.
  - apply (proj1 (proj2 (fetchNowPlaying_transport_failures
                    (scriptedBus (SendError "Timeout") SendNull true)
                    (mkDracError PlatformSpecific "DBus error: Timeout")
                    (conj (fun _ _ _ _ => eq_refl) (fun _ _ => eq_refl)))));
      reflexivity.
  - apply (proj2 (proj2 (fetchNowPlaying_transport_failures
                    (scriptedBus
                       (SendReply (namesReply ["org.mpris.MediaPlayer2.vlc"]))
                       SendNull true)
                    (mkDracError ApiUnavailable
                       "DBus returned null without error")
                    (conj (fun _ _ _ _ => eq_refl) (fun _ _ => eq_refl))))
             ["org.mpris.MediaPlayer2.vlc"] "org.mpris.MediaPlayer2.vlc");
      try reflexivity.
    split; reflexivity.
Defined.

(** X8: a [ListNames] reply that has no argument, or whose first argument
    is no array, is a [ParseError]; no player is looked for. *)
Theorem fetchNowPlaying_names_not_array (w : World) (r : DBusMessage) :
  allocations_succeed w ->
  dbus_bus_get w DBUS_BUS_SESSION = BusGetConnection ->
  dbus_connection_send_with_reply_and_block w listNamesCall 100 = SendReply r ->
  (forall t items more, msg_args r <> DArray t items :: more) ->
  fetchNowPlaying w
  = ERR ParseError "Invalid DBus ListNames reply format: Expected array".
Proof.
  intros [Hnew _] Hbus Hsend Hshape. unfold fetchNowPlaying, busGet.
  rewrite Hbus. cbn [TRY]. unfold discover, newMethodCall. rewrite Hnew.
  cbn [TRY]. change (mkDBusMessage _ _ _ _ []) with listNamesCall.
  rewrite send_connected, Hsend. cbn [TRY].
  unfold iterInit, dbus_message_iter_init. cbn [m_msg].
  destruct (msg_args r) as [| a more]; [reflexivity |].
  destruct a as [k | s | t items | v | fields | fields]; try reflexivity.
  - cbn [isValid getArgType m_isValid m_iter negb orb
           dbus_message_iter_get_arg_type arg_type].
    destruct (basic_code_not_container k) as (_ & _ & Ha & _).
    apply Z.eqb_neq in Ha. now rewrite Ha.
  - now elim (Hshape t items more).
Qed.

Lemma fetchNowPlaying_names_not_array_witness :
  fetchNowPlaying
    (scriptedBus (SendReply (reply [DString "org.mpris.MediaPlayer2.vlc"]))
       SendNull true)
  = ERR ParseError "Invalid DBus ListNames reply format: Expected array".
Proof.
  apply (fetchNowPlaying_names_not_array
           (scriptedBus
              (SendReply (reply [DString "org.mpris.MediaPlayer2.vlc"]))
              SendNull true)
           (reply [DString "org.mpris.MediaPlayer2.vlc"])).
  - split; intros; reflexivity.
  - reflexivity.
  - reflexivity.
  - discriminate.
Defined.

(** X9: a player that answers with an empty dictionary gives a successful
    record that has the player name and no title: the DBus backend does
    not turn a missing title into [NotFound]. *)
Theorem fetchNowPlaying_empty_metadata (w : World) (names : list string)
        (player : string) :
  allocations_succeed w -> lists_names w names ->
  find has_prefix names = Some player ->
  answers_metadata w player (metadataReply []) ->
  fetchNowPlaying w
  = Ok (mkMediaData None None None (Some (extractPlayerName player))).
Proof.
  intros Halloc Hnames Hfind Hmeta. unfold fetchNowPlaying.
  destruct (discover_names w names Halloc Hnames) as [-> Hd].
  cbn [TRY]. rewrite Hd, Hfind. cbn [TRY].
  now rewrite (retrieve_reply w player _ Halloc Hmeta).
Qed.

Lemma fetchNowPlaying_empty_metadata_witness :
  fetchNowPlaying
    (busWorld ["org.freedesktop.DBus"; "org.mpris.MediaPlayer2.mpv"]
       (metadataReply []))
  = Ok (mkMediaData None None None (Some "mpv")).
Proof.
  apply (fetchNowPlaying_empty_metadata
           (busWorld ["org.freedesktop.DBus"; "org.mpris.MediaPlayer2.mpv"]
              (metadataReply []))
           ["org.freedesktop.DBus"; "org.mpris.MediaPlayer2.mpv"]
           "org.mpris.MediaPlayer2.mpv").
  - split; intros; reflexivity.
  - split; reflexivity.
  - reflexivity.
  - reflexivity.
Defined.

(** X10: a successful DBus fetch never holds an empty title, artist or
    album, and always holds a player name: the name of a listed bus name
    that carries the MPRIS prefix, with the prefix taken off. *)
Theorem fetchNowPlaying_success_fields (w : World) (data : MediaData) :
  fetchNowPlaying w = Ok data ->
  title data <> Some "" /\ artist data <> Some "" /\ album data <> Some ""
  /\ exists player,
      has_prefix player = true
      /\ playerName data = Some (extractPlayerName player).
Proof. apply dbus_no_empty_field. Qed.

Lemma fetchNowPlaying_success_fields_witness :
  title (mkMediaData (Some "Song") (Some "Band") (Some "Rec") (Some "Foo"))
  <> Some ""
  /\ artist (mkMediaData (Some "Song") (Some "Band") (Some "Rec") (Some "Foo"))
     <> Some ""
  /\ album (mkMediaData (Some "Song") (Some "Band") (Some "Rec") (Some "Foo"))
     <> Some ""
  /\ exists player,
      has_prefix player = true
      /\ playerName
           (mkMediaData (Some "Song") (Some "Band") (Some "Rec") (Some "Foo"))
         = Some (extractPlayerName player).
Proof.
  apply (fetchNowPlaying_success_fields fooWorld). reflexivity.
Defined.

End DBusWalk.

(** ** The Windows backend: negotiation and conversion *)

Section WindowsNegotiation.

Import npsm samples terms.

(** X11: every failure before the property store is [ApiUnavailable] or
    [NotFound]; its message is the fixed text for a failed
    [GetMediaObjectInfo], and otherwise shows a status code as "0x" and
    eight hexadecimal digits. *)
Theorem getPropertyStore_failure_reasons (w : World) (e : DracError) :
  getPropertyStore w = Err e ->
  (code e = ApiUnavailable \/ code e = NotFound)
  /\ (message e = "Failed to get media object info"
      \/ exists hr : HRESULT,
          contains (message e) ("0x" ++ format_08X (to_u32 hr)) = true).
Proof. apply getPropertyStore_failure. Qed.

Lemma getPropertyStore_failure_reasons_witness :
  let e :=
    mkDracError NotFound
      "No media session found (HRESULT: 0x80004005, sessionCount=3)" in
  (code e = ApiUnavailable \/ code e = NotFound)
  /\ (message e = "Failed to get media object info"
      \/ exists hr : HRESULT,
          contains (message e) ("0x" ++ format_08X (to_u32 hr)) = true).
Proof.
  intros e.
  apply (getPropertyStore_failure_reasons
           (negotiationWorld (E_FAIL, false) S_OK (S_OK, None) S_OK
              (S_OK, None)) e).
  vm_compute. reflexivity.
Defined.

(** X12: [NotFound] comes from the current-session query and from nothing
    else: a failure before the property store is [NotFound] exactly when
    the session manager was created and [get_CurrentSession] failed or gave
    a null session. *)
Theorem getPropertyStore_NotFound (w : World) (e : DracError) :
  getPropertyStore w = Err e ->
  (code e = NotFound
   <-> FAILED (CoCreateInstance w) = false
       /\ (FAILED (fst (get_CurrentSession w)) = true
           \/ snd (get_CurrentSession w) = false)).
Proof.
  unfold getPropertyStore.
  destruct (FAILED (CoCreateInstance w)).
  { intros [= <-]. cbn [code]. split; [discriminate | now intros [? _]]. }
  destruct (get_CurrentSession w) as [hr1 sessionUnknown]. cbn [fst snd].
  destruct (FAILED hr1); cbn [orb].
  { intros [= <-]. cbn [code]. split; auto. }
  destruct sessionUnknown; cbn [negb].
  2: { intros [= <-]. cbn [code]. split; auto. }
  assert (Hother : forall r : Result IPropertyStore,
             (forall e', r = Err e' -> code e' = ApiUnavailable) ->
             r = Err e ->
             (code e = NotFound
              <-> false = false /\ (false = true \/ true = false))).
  { intros r Hr He. rewrite (Hr e He). split; [discriminate |].
    intros [_ [H | H]]; discriminate H. }
  apply Hother. intros e'.
  destruct (FAILED (As_INowPlayingSession w)); [now intros [= <-] |].
  destruct (ActivateMediaPlaybackDataSource w) as [hr2 dataSourceUnknown].
  destruct (FAILED hr2 || negb dataSourceUnknown); [now intros [= <-] |].
  assert (Hfinish : forall answer : HRESULT * option IPropertyStore,
             store_of answer = Err e' -> code e' = ApiUnavailable).
  { intros [hr [propStore |]]; cbn; [destruct (FAILED hr) |];
      now intros [= <-]. }
  cbv zeta. destruct (SUCCEEDED (As_IMediaPlaybackDataSource2 w));
    [apply Hfinish |].
  destruct (FAILED (As_IMediaPlaybackDataSource w));
    [now intros [= <-] | apply Hfinish].
Qed.

Lemma getPropertyStore_NotFound_witness :
  NotFound = NotFound
  <-> FAILED S_OK = false /\ (FAILED E_FAIL = true \/ false = false).
Proof.
  apply (getPropertyStore_NotFound
           (negotiationWorld (E_FAIL, false) S_OK (S_OK, None) S_OK
              (S_OK, None))
           (mkDracError NotFound
              "No media session found (HRESULT: 0x80004005, sessionCount=3)")).
  vm_compute. reflexivity.
Defined.

Lemma getPropertyStore_activated (w : World) :
  session_activated w ->
  getPropertyStore w
  = if SUCCEEDED (As_IMediaPlaybackDataSource2 w)
    then store_of (DataSource2_GetMediaObjectInfo w)
    else if FAILED (As_IMediaPlaybackDataSource w)
         then ERR ApiUnavailable
                ("Failed to get IMediaPlaybackDataSource interface (HRESULT: 0x"
                 ++ format_08X (to_u32 (As_IMediaPlaybackDataSource w)) ++ ")")
         else store_of (DataSource_GetMediaObjectInfo w).
Proof.
  intros (H1 & H2 & H3 & H4 & H5 & H6). unfold getPropertyStore.
  rewrite H1. destruct (get_CurrentSession w) as [hr1 sessionUnknown].
  cbn [fst snd] in H2, H3. rewrite H2, H3. cbn [orb negb]. rewrite H4.
  destruct (ActivateMediaPlaybackDataSource w) as [hr2 dataSourceUnknown].
  cbn [fst snd] in H5, H6. rewrite H5, H6. reflexivity.
Qed.

(** X13: the older data-source interface is asked only when the newer one
    cannot be obtained.  With the newer interface obtained, the outcome is
    that of its [GetMediaObjectInfo] alone, so a failure there is final
    even when the older interface would deliver a store; without it, the
    outcome is that of the older interface. *)
Theorem getPropertyStore_negotiation (w : World) :
  session_activated w ->
  (SUCCEEDED (As_IMediaPlaybackDataSource2 w) = true ->
   getPropertyStore w = store_of (DataSource2_GetMediaObjectInfo w))
  /\ (SUCCEEDED (As_IMediaPlaybackDataSource2 w) = false ->
      FAILED (As_IMediaPlaybackDataSource w) = false ->
      getPropertyStore w = store_of (DataSource_GetMediaObjectInfo w))
  /\ (SUCCEEDED (As_IMediaPlaybackDataSource2 w) = false ->
      FAILED (As_IMediaPlaybackDataSource w) = true ->
      exists msg, getPropertyStore w = ERR ApiUnavailable msg).
Proof.
  intros Hact. rewrite (getPropertyStore_activated w Hact).
  split; [| split].
  - now intros ->.
  - now intros -> ->.
  - intros -> ->. eauto.
Qed.

Lemma getPropertyStore_negotiation_witness :
  let older := store (lpwstr "Song") missing missing in
  getPropertyStore
    (negotiationWorld (S_OK, true) S_OK (E_FAIL, None) S_OK
       (S_OK, Some older))
  = ERR ApiUnavailable "Failed to get media object info"
  /\ getPropertyStore
       (negotiationWorld (S_OK, true) E_NOINTERFACE (E_FAIL, None) S_OK
          (S_OK, Some older))
     = Ok older
  /\ exists msg,
      getPropertyStore
        (negotiationWorld (S_OK, true) E_NOINTERFACE (E_FAIL, None)
           E_NOINTERFACE (S_OK, Some older))
      = ERR ApiUnavailable msg.
Proof.
  intros older. split; [| split].
  - apply (proj1 (getPropertyStore_negotiation
                    (negotiationWorld (S_OK, true) S_OK (E_FAIL, None) S_OK
                       (S_OK, Some older))
                    (conj eq_refl (conj eq_refl (conj eq_refl
                       (conj eq_refl (conj eq_refl eq_refl))))))).
    reflexivity.
  - apply (proj1 (proj2 (getPropertyStore_negotiation
                    (negotiationWorld (S_OK, true) E_NOINTERFACE
                       (E_FAIL, None) S_OK (S_OK, Some older))
                    (conj eq_refl (conj eq_refl (conj eq_refl
                       (conj eq_refl (conj eq_refl eq_refl))))))));
      reflexivity.
  - apply (proj2 (proj2 (getPropertyStore_negotiation
                    (negotiationWorld (S_OK, true) E_NOINTERFACE
                       (E_FAIL, None) E_NOINTERFACE (S_OK, Some older))
                    (conj eq_refl (conj eq_refl (conj eq_refl
                       (conj eq_refl (conj eq_refl eq_refl))))))));
      reflexivity.
Defined.

(** X14: a successful Windows fetch holds no empty string and never a
    player name. *)
Theorem FetchNowPlaying_success_shape (w : World) (data : MediaData) :
  FetchNowPlaying w = Ok data ->
  no_empty_field data /\ playerName data = None.
Proof.
  intros H. split; [now apply (npsm_no_empty_field w) |].
  revert H. unfold FetchNowPlaying.
  destruct (getPropertyStore w) as [propStore | e]; [| discriminate].
  intros [= <-]. apply readMediaData_fields.
Qed.

Lemma FetchNowPlaying_success_shape_witness :
  no_empty_field (mkMediaData (Some "Song") None None None)
  /\ playerName (mkMediaData (Some "Song") None None None) = None.
Proof.
  apply (FetchNowPlaying_success_shape
           (sessionWorld (S_OK, Some (store (lpwstr "Song") missing (lpwstr ""))))).
  reflexivity.
Defined.

(** X15: when no lookup is usable the fetch still succeeds, with the
    record that has no field: the Windows backend reports a session
    without readable metadata as a success, not as [NotFound]. *)
Theorem FetchNowPlaying_nothing_readable
        (w : World) (propStore : IPropertyStore) :
  getPropertyStore w = Ok propStore ->
  (forall key, lookup_unusable propStore key) ->
  FetchNowPlaying w = Ok MediaData_default.
Proof.
  intros Hstore Hall. unfold FetchNowPlaying. rewrite Hstore. cbn [TRY].
  unfold readMediaData.
  now rewrite !(readProperty_unusable w propStore _ (Hall _)).
Qed.

Lemma FetchNowPlaying_nothing_readable_witness :
  FetchNowPlaying (sessionWorld (S_OK, Some (store missing missing missing)))
  = Ok MediaData_default.
Proof.
  apply (FetchNowPlaying_nothing_readable
           (sessionWorld (S_OK, Some (store missing missing missing)))
           (store missing missing missing) eq_refl).
  intros key. left. cbn.
  destruct (pid key =? 4)%Z, (Data1 (fmtid key) =? 4070540768)%Z;
    reflexivity.
Defined.

(** X16: a conversion of a non-empty wide string that succeeds has made
    exactly two calls, the second with a buffer of the size the first
    returned; both returned a non-zero count, and the result has exactly
    that size, whatever the second call wrote. *)
Theorem ConvertWStringToUTF8_two_calls
        (w : World) (wstr : WString) (str : string) (calls : list NativeCall) :
  wstr <> [] ->
  ConvertWStringToUTF8_traced w wstr = (Ok str, calls) ->
  let cch := to_i32 (Z.of_nat (List.length wstr)) in
  let sizeNeeded := wc_return (WideCharToMultiByte w wstr cch 0) in
  calls = [CallWideCharToMultiByte wstr cch 0;
           CallWideCharToMultiByte wstr cch sizeNeeded]
  /\ sizeNeeded <> 0%Z
  /\ wc_return (WideCharToMultiByte w wstr cch sizeNeeded) <> 0%Z
  /\ String.length str = Z.to_nat sizeNeeded.
Proof.
  intros Hne. unfold ConvertWStringToUTF8_traced.
  destruct wstr as [| u wstr]; [now elim Hne |].
  set (cch := to_i32 (Z.of_nat (List.length (u :: wstr)))).
  set (sizeNeeded := wc_return (WideCharToMultiByte w (u :: wstr) cch 0)).
  destruct (Z.eqb_spec sizeNeeded 0) as [| Hsize]; [discriminate |].
  destruct (Z.eqb_spec
              (wc_return (WideCharToMultiByte w (u :: wstr) cch sizeNeeded)) 0)
    as [| Hconv]; [discriminate |].
  intros [= <- <-]. cbv zeta. repeat split; auto.
  rewrite write_buffer_length.
  generalize (Z.to_nat sizeNeeded) as n.
  induction n as [| n IH]; cbn; [reflexivity | now rewrite IH].
Qed.

Lemma ConvertWStringToUTF8_two_calls_witness :
  [CallWideCharToMultiByte [65; 66]%Z 2 0;
   CallWideCharToMultiByte [65; 66]%Z 2 2]
  = [CallWideCharToMultiByte [65; 66]%Z 2 0;
     CallWideCharToMultiByte [65; 66]%Z 2 2]
  /\ 2%Z <> 0%Z /\ 2%Z <> 0%Z /\ String.length "AB" = 2%nat.
Proof.
  apply (ConvertWStringToUTF8_two_calls (sessionWorld (E_FAIL, None))
           [65; 66]%Z "AB"
           [CallWideCharToMultiByte [65; 66]%Z 2 0;
            CallWideCharToMultiByte [65; 66]%Z 2 2]).
  - discriminate.
  - reflexivity.
Defined.

End WindowsNegotiation.

(** ** The macOS backend: strategy choice and the native handler *)

Section MacStrategies.

Import macos samples terms.

Lemma available_path (w : World) :
  isMediaControlAvailable w = true <-> getMediaControlPath w <> None.
Proof.
  unfold isMediaControlAvailable, getMediaControlPath. split.
  - intros H. apply existsb_exists in H. destruct H as (path & Hin & Hacc).
    intros Hnone. now rewrite (find_none _ _ Hnone path Hin) in Hacc.
  - intros H. destruct (find (access_X_OK w) paths) as [path |] eqn:Hfind;
      [| now elim H].
    apply find_some in Hfind. apply existsb_exists. now exists path.
Qed.

(** X17: the two scans of the install paths agree: the helper counts as
    available exactly when a path is found; the path found is one of the
    three, is executable, and is the Homebrew one for ARM whenever that
    one is executable. *)
Theorem getMediaControlPath_available (w : World) :
  (isMediaControlAvailable w = true <-> getMediaControlPath w <> None)
  /\ (forall path, getMediaControlPath w = Some path ->
                   In path paths /\ access_X_OK w path = true)
  /\ (access_X_OK w "/opt/homebrew/bin/media-control" = true ->
      getMediaControlPath w = Some "/opt/homebrew/bin/media-control").
Proof.
  split; [apply available_path | split].
  - intros path H. now apply find_some in H.
  - intros H. unfold getMediaControlPath. cbn. now rewrite H.
Qed.

Lemma getMediaControlPath_available_witness :
  In "/opt/homebrew/bin/media-control" paths
  /\ access_X_OK (helperWorld "null" (fun _ => None))
       "/opt/homebrew/bin/media-control" = true.
Proof.
  apply (proj1 (proj2 (getMediaControlPath_available
                         (helperWorld "null" (fun _ => None))))).
  reflexivity.
Defined.

(** X18: the version of the operating system alone decides the
    strategy.  From 15.4 on (major above 15, or major 15 and minor at least
    4) the result is that of the helper path when the helper is installed
    and [ApiUnavailable] with the install hint when it is not, and the
    native framework plays no part; below 15.4 the result is that of the
    native path, and the helper plays no part. *)
Theorem fetchNowPlaying_restricted (w : World) :
  ((15 < fst (operatingSystemVersion w)
    \/ (fst (operatingSystemVersion w) = 15
        /\ 4 <= snd (operatingSystemVersion w)))%Z ->
   fetchNowPlaying w
   = Some (if isMediaControlAvailable w then fetchViaMediaControl w
           else ERR ApiUnavailable
                  "Now Playing requires 'media-control' on macOS 15.4+. Install via: brew install media-control"))
  /\ ((fst (operatingSystemVersion w) < 15
       \/ (fst (operatingSystemVersion w) = 15
           /\ snd (operatingSystemVersion w) < 4))%Z ->
      fetchNowPlaying w = fetchViaNativeApi w).
Proof.
  unfold fetchNowPlaying, isMediaRemoteRestricted.
  destruct (operatingSystemVersion w) as [major minor]. cbn [fst snd].
  split; intros Hversion.
  - destruct (Z.ltb_spec 15 major);
      [now destruct (isMediaControlAvailable w) |].
    destruct (Z.eqb_spec major 15); [| lia].
    destruct (Z.leb_spec 4 minor); [| lia].
    now destruct (isMediaControlAvailable w).
  - destruct (Z.ltb_spec 15 major); [lia |].
    destruct (Z.eqb_spec major 15); [| reflexivity].
    destruct (Z.leb_spec 4 minor); [lia | reflexivity].
Qed.

Lemma fetchNowPlaying_restricted_witness :
  fetchNowPlaying
    (mkWorld (15, 4)%Z (fun _ => false) (fun _ => None) (fun _ => None)
       true true true (Some (Some [(titleKey, "Song")])))
  = Some (ERR ApiUnavailable
            "Now Playing requires 'media-control' on macOS 15.4+. Install via: brew install media-control")
  /\ fetchNowPlaying
       (mkWorld (15, 3)%Z
          (fun path => String.eqb path "/opt/homebrew/bin/media-control")
          (fun _ => Some "null") (fun _ => None)
          true true true (Some (Some [(titleKey, "Song")])))
     = Some (Ok (mkMediaData (Some "Song") None None None)).
Proof.
  split.
  - apply (proj1 (fetchNowPlaying_restricted
                    (mkWorld (15, 4)%Z (fun _ => false) (fun _ => None)
                       (fun _ => None) true true true
                       (Some (Some [(titleKey, "Song")]))))).
    right. split; [reflexivity | discriminate].
  - apply (proj2 (fetchNowPlaying_restricted
                    (mkWorld (15, 3)%Z
                       (fun path =>
                          String.eqb path "/opt/homebrew/bin/media-control")
                       (fun _ => Some "null") (fun _ => None)
                       true true true (Some (Some [(titleKey, "Song")]))))).
    right. split; reflexivity.
Defined.

(** The handler requires the title only, and copies the three fields as
    the dictionary holds them. *)
Lemma handler_fields (info : NSDictionary) :
  handler (Some info)
  = match objectForKey info titleKey with
    | None => ERR NotFound "No media is currently playing"
    | Some t =>
        Ok (mkMediaData (Some t) (objectForKey info artistKey)
              (objectForKey info albumKey) None)
    end.
Proof.
  unfold handler, titleKey, artistKey, albumKey.
  destruct (objectForKey info "kMRMediaRemoteNowPlayingInfoTitle"),
    (objectForKey info "kMRMediaRemoteNowPlayingInfoArtist"),
    (objectForKey info "kMRMediaRemoteNowPlayingInfoAlbum"); reflexivity.
Qed.

Lemma fetchViaMediaControl_codes (w : World) (r : Result MediaData) :
  fetchViaMediaControl w = r ->
  match r with
  | Ok data => title data <> None /\ playerName data = None
  | Err e => In (code e) [ApiUnavailable; IoError; NotFound; ParseError]
  end.
Proof.
  intros <-. unfold fetchViaMediaControl.
  destruct (getMediaControlPath w); [| cbn; tauto].
  destruct (popen w _); [| cbn; tauto].
  destruct (_ || _); [cbn; tauto |].
  destruct (glz_read w _) as [parsed |]; [| cbn; tauto].
  destruct (empty (mc_title parsed)); [cbn; tauto |].
  destruct (negb (empty (mc_artist parsed))),
    (negb (empty (mc_album parsed))); cbn; split; congruence.
Qed.

Lemma fetchViaNativeApi_codes (w : World) (r : Result MediaData) :
  fetchViaNativeApi w = Some r ->
  match r with
  | Ok data => title data <> None /\ playerName data = None
  | Err e => In (code e) [ApiUnavailable; IoError; NotFound; ParseError]
  end.
Proof.
  unfold fetchViaNativeApi.
  destruct (negb (CFURLCreateWithFileSystemPath w));
    [intros [= <-]; cbn; tauto |].
  destruct (negb (CFBundleCreate w)); [intros [= <-]; cbn; tauto |].
  destruct (negb (CFBundleGetFunctionPointerForName w));
    [intros [= <-]; cbn; tauto |].
  destruct (MRMediaRemoteGetNowPlayingInfo w) as [[info |] |];
    [| intros [= <-]; cbn; tauto | discriminate].
  intros H. assert (Hr : r = handler (Some info)) by congruence.
  rewrite Hr, handler_fields.
  destruct (objectForKey info titleKey); cbn; [split; congruence | tauto].
Qed.

(** X19: on macOS every successful fetch has a title and no player name,
    on the native path as on the helper path; a failure has one of the
    codes [ApiUnavailable], [IoError], [NotFound] and [ParseError]. *)
Theorem macos_fetch_outcomes (w : World) (r : Result MediaData) :
  fetchNowPlaying w = Some r ->
  match r with
  | Ok data => title data <> None /\ playerName data = None
  | Err e => In (code e) [ApiUnavailable; IoError; NotFound; ParseError]
  end.
Proof.
  unfold fetchNowPlaying.
  destruct (isMediaRemoteRestricted w);
    [| exact (fetchViaNativeApi_codes w r)].
  destruct (isMediaControlAvailable w).
  - intros H. apply (fetchViaMediaControl_codes w). congruence.
  - intros [= <-]. cbn. tauto.
Qed.

Lemma macos_fetch_outcomes_witness :
  title (mkMediaData (Some "Song") (Some "Band") None None) <> None
  /\ playerName (mkMediaData (Some "Song") (Some "Band") None None) = None.
Proof.
  apply (macos_fetch_outcomes
           (nativeWorld (Some [(titleKey, "Song"); (artistKey, "Band")]))
           (Ok (mkMediaData (Some "Song") (Some "Band") None None))).
  reflexivity.
Defined.

(** X21: a successful fetch through the helper holds no empty string: an
    empty artist or album of the helper's record is left out. *)
Theorem fetchViaMediaControl_success_fields (w : World) (data : MediaData) :
  fetchViaMediaControl w = Ok data -> no_empty_field data.
Proof. apply fetchViaMediaControl_no_empty_field. Qed.

Lemma fetchViaMediaControl_success_fields_witness :
  no_empty_field (mkMediaData (Some "Song") (Some "Band") None None).
Proof.
  apply (fetchViaMediaControl_success_fields
           (helperWorld "{}"
              (fun _ => Some (mkMediaControlOutput "Song" "Band" "" true)))).
  reflexivity.
Defined.

End MacStrategies.

(** ** The plugin adapter *)

Section PluginAdapter.

Import plugin terms.

(** X22: [collectData] never changes the readiness or the configuration
    of the plugin; it changes the record only by storing the result of a
    successful fetch; and on a plugin that is not ready (before
    [initialize], after [shutdown]) it fails with [NotSupported] and
    changes nothing. *)
Theorem collectData_frame (fetch : unit -> Result MediaData)
        (p : NowPlayingPlugin) :
  let r := fst (collectData fetch p) in
  let p' := snd (collectData fetch p) in
  m_ready p' = m_ready p
  /\ m_config p' = m_config p
  /\ (m_data p' = m_data p
      \/ (r = Ok tt /\ m_lastError p' = None /\ fetch tt = Ok (m_data p')))
  /\ (isReady p = false ->
      r = ERR NotSupported "Now Playing plugin is not ready" /\ p' = p).
Proof.
  unfold collectData, isReady.
  destruct (m_ready p) eqn:Hready; cbn [negb].
  - destruct (negb (enabled (m_config p))).
    + cbn. repeat split; auto; congruence.
    + destruct (fetch tt) as [d | e]; cbn; repeat split; auto; congruence.
  - cbn. repeat split; auto.
Qed.

Lemma collectData_frame_witness :
  fst (collectData (always (Ok MediaData_default)) (shutdown constructed))
  = ERR NotSupported "Now Playing plugin is not ready"
  /\ snd (collectData (always (Ok MediaData_default)) (shutdown constructed))
     = shutdown constructed.
Proof.
  apply (proj2 (proj2 (proj2 (collectData_frame
                                (always (Ok MediaData_default))
                                (shutdown constructed))))).
  reflexivity.
Defined.

(** X23: a failed poll keeps the record of the last successful one.  After
    [initialize], a successful fetch of [d] followed by a failed fetch
    returns the error of the backend, records its message as the last
    error, and still holds and displays [d]. *)
Theorem collectData_failure_keeps_data (p : NowPlayingPlugin)
        (d : MediaData) (e : DracError) :
  let p1 := snd (collectData (always (Ok d)) (snd (initialize p))) in
  let p2 := snd (collectData (always (Err e)) p1) in
  fst (collectData (always (Err e)) p1) = Err e
  /\ m_data p2 = d
  /\ getLastError p2 = Some (message e)
  /\ getDisplayValue p2 = getDisplayValue p1.
Proof. repeat split. Qed.

(** X24: the display value exists exactly when the record has a title: it
    is "artist - title" with an artist and the title alone without; a
    record without title gives [NotFound], whatever else it holds. *)
Theorem getDisplayValue_title (p : NowPlayingPlugin) :
  (forall s, getDisplayValue p = Ok s
             <-> exists t, title (m_data p) = Some t
                           /\ s = display_line (m_data p) t)
  /\ (title (m_data p) = None
      <-> getDisplayValue p = ERR NotFound "No media currently playing").
Proof.
  unfold getDisplayValue, display_line.
  destruct (title (m_data p)) as [t |], (artist (m_data p)) as [a |];
    (split; [intros s; split;
               [intros [= <-]; eauto | intros (t' & [= <-] & ->); reflexivity]
            | split; intros H; try discriminate H; reflexivity]).
Qed.

Lemma getDisplayValue_title_witness :
  exists t,
    title (mkMediaData (Some "Song") (Some "Band") None None) = Some t
    /\ "Band - Song"
       = display_line (mkMediaData (Some "Song") (Some "Band") None None) t.
Proof.
  apply (proj1 (proj1 (getDisplayValue_title
                         (mkNowPlayingPlugin (mkNowPlayingConfig true)
                            (mkMediaData (Some "Song") (Some "Band") None None)
                            None true))
                 "Band - Song")).
  reflexivity.
Defined.

(** X25: [getFields] has one binding for each field that is present, and
    none for an absent one; the player name is filed under the key
    "player", not under "playerName". *)
Theorem getFields_bindings (p : NowPlayingPlugin) :
  Map_find (getFields p) "title" = title (m_data p)
  /\ Map_find (getFields p) "artist" = artist (m_data p)
  /\ Map_find (getFields p) "album" = album (m_data p)
  /\ Map_find (getFields p) "player" = playerName (m_data p)
  /\ Map_find (getFields p) "playerName" = None
  /\ List.length (getFields p)
     = List.length
         (filter (fun field => match field with Some _ => true | None => false end)
            [title (m_data p); artist (m_data p); album (m_data p);
             playerName (m_data p)]).
Proof.
  unfold getFields.
  destruct (title (m_data p)), (artist (m_data p)), (album (m_data p)),
    (playerName (m_data p)); repeat split.
Qed.

(** X26: in every state the plugin can reach it is enabled, so a ready
    plugin always consults the backend: the "disabled" branch of
    [collectData] is never taken. *)
Theorem reachable_enabled (p : NowPlayingPlugin) :
  reachable p ->
  isEnabled p = true
  /\ forall fetch, isReady p = true ->
                   fst (collectData fetch p)
                   = match fetch tt with
                     | Ok _ => Ok tt
                     | Err e => Err e
                     end.
Proof.
  intros Hreach.
  assert (Henabled : isEnabled p = true).
  { induction Hreach as [| p _ IH | p _ IH | fetch p _ IH];
      try reflexivity; try exact IH.
    unfold collectData, isEnabled in *.
    destruct (negb (m_ready p)); [exact IH |].
    rewrite IH. cbn [negb]. destruct (fetch tt); exact IH. }
  split; [exact Henabled |].
  intros fetch Hready. unfold collectData, isReady, isEnabled in *.
  rewrite Hready, Henabled. cbn [negb]. now destruct (fetch tt).
Qed.

Lemma reachable_enabled_witness :
  isEnabled (snd (initialize constructed)) = true
  /\ forall fetch, isReady (snd (initialize constructed)) = true ->
                   fst (collectData fetch (snd (initialize constructed)))
                   = match fetch tt with
                     | Ok _ => Ok tt
                     | Err e => Err e
                     end.
Proof.
  apply (reachable_enabled (snd (initialize constructed))).
  apply reachable_initialize, reachable_constructed.
Defined.

End PluginAdapter.

(** ** Consecutive calls *)

Section NativeFacts.

Import native.

Context {S V : Type} (media : S -> V).

Lemma answers_ret {A : Type} (v : V) (a : A) : answers media v (ret a) a.
Proof. intros s Hs. now split. Qed.

Lemma answers_bind {A B : Type} (v : V) (m : Native S A)
      (k : A -> Native S B) (a : A) (b : B) :
  answers media v m a -> answers media v (k a) b ->
  answers media v (bind m k) b.
Proof.
  intros Hm Hk s Hs. unfold bind. destruct (Hm s Hs) as [Ha Hv].
  destruct (m s) as [a' s']. cbn [fst snd] in Ha, Hv. subst a'.
  now apply Hk.
Qed.

Lemma answers_seq {A B : Type} (v : V) (m : Native S A) (k : Native S B)
      (a : A) (b : B) :
  answers media v m a -> answers media v k b -> answers media v (m >> k) b.
Proof. intros Hm Hk. now apply (answers_bind v m (fun _ => k) a b). Qed.

Lemma steady_answers {A : Type} (m : Native S A) (s0 : S) :
  steady media m -> answers media (media s0) m (fst (m s0)).
Proof.
  intros Hm s Hs. destruct (Hm s s0 Hs) as [Ha Hv]. split; [exact Ha |].
  now rewrite Hv.
Qed.

Lemma steady_done (m : Native S unit) (v : V) :
  steady media m -> answers media v m tt.
Proof.
  intros Hm s Hs. destruct (Hm s s eq_refl) as [_ Hv]. split.
  - now destruct (fst (m s)).
  - now rewrite Hv.
Qed.

Lemma answers_twice {A : Type} (run : Native S A) (expected : A) (s0 : S) :
  answers media (media s0) run expected -> twice media run expected s0.
Proof.
  intros Hrun. destruct (Hrun s0 eq_refl) as [H1 Hv1].
  destruct (Hrun (snd (run s0)) Hv1) as [H2 Hv2]. now repeat split.
Qed.

End NativeFacts.

Section DBusCalls.

Import native dbus_calls.

Context {S V : Type} (media : S -> V) (b : Bus S).
Hypothesis Hsteady : steady_bus b media.
Variable s0 : S.

Let w : dbus.World := snapshot b s0.
Let v : V := media s0.

Lemma busGet_answers (bus_type : Z) :
  answers media v (busGet b bus_type) (dbus.busGet w bus_type).
Proof.
  destruct Hsteady as (Hbus & _). unfold busGet.
  eapply answers_bind; [apply steady_answers, Hbus | apply answers_ret].
Qed.

Lemma newMethodCall_answers (destination path interface method : string) :
  answers media v (newMethodCall b destination path interface method)
    (dbus.newMethodCall w destination path interface method).
Proof.
  destruct Hsteady as (_ & Hnew & _). unfold newMethodCall.
  eapply answers_bind; [apply steady_answers, Hnew | apply answers_ret].
Qed.

Lemma appendArgs_fold_answers (args : list string) :
  forall success raw,
    answers media v (appendArgs_fold b success raw args)
      (dbus.appendArgs_fold w success raw args).
Proof.
  destruct Hsteady as (_ & _ & Happ & _).
  induction args as [| arg args IH]; intros success raw.
  - apply answers_ret.
  - cbn [appendArgs_fold dbus.appendArgs_fold].
    destruct success; [| apply IH].
    unfold appendArgInternal, dbus.appendArgInternal.
    eapply answers_bind.
    + eapply answers_bind; [apply steady_answers, Happ | apply answers_ret].
    + change (dbus.dbus_message_iter_append_basic w raw arg)
        with (fst (dbus_message_iter_append_basic b raw arg s0)).
      destruct (fst (dbus_message_iter_append_basic b raw arg s0)); apply IH.
Qed.

Lemma appendArgs_answers (m : dbus.Message) (args : list string) :
  answers media v (appendArgs b m args) (dbus.appendArgs w m args).
Proof.
  unfold appendArgs, dbus.appendArgs.
  destruct (dbus.m_msg m) as [raw |]; [| apply answers_ret].
  eapply answers_bind; [apply appendArgs_fold_answers |].
  destruct (dbus.appendArgs_fold w true raw args). apply answers_ret.
Qed.

Lemma sendWithReplyAndBlock_answers (c : dbus.Connection) (m : dbus.Message)
      (timeout : Z) :
  answers media v (sendWithReplyAndBlock b c m timeout)
    (dbus.sendWithReplyAndBlock w c m timeout).
Proof.
  destruct Hsteady as (_ & _ & _ & Hsend & _).
  unfold sendWithReplyAndBlock, dbus.sendWithReplyAndBlock.
  destruct (dbus.m_conn c); [| apply answers_ret].
  destruct (dbus.m_msg m) as [raw |]; [| apply answers_ret].
  eapply answers_bind; [apply steady_answers, Hsend | apply answers_ret].
Qed.

Lemma Message_destroy_answers (m : dbus.Message) :
  answers media v (Message_destroy b m) tt.
Proof.
  destruct Hsteady as (_ & _ & _ & _ & Hunref & _). unfold Message_destroy.
  destruct (dbus.m_msg m); [apply steady_done, Hunref | apply answers_ret].
Qed.

Lemma Connection_destroy_answers (c : dbus.Connection) :
  answers media v (Connection_destroy b c) tt.
Proof.
  destruct Hsteady as (_ & _ & _ & _ & _ & Hunref). unfold Connection_destroy.
  destruct (dbus.m_conn c); [apply steady_done, Hunref | apply answers_ret].
Qed.

Lemma discover_answers (c : dbus.Connection) :
  answers media v (discover b c) (dbus.discover w c).
Proof.
  unfold discover, dbus.discover.
  eapply answers_bind; [apply newMethodCall_answers |].
  destruct (dbus.newMethodCall w _ _ _ _) as [listNamesMsg | e];
    [| apply answers_ret].
  cbn [TRY]. eapply answers_bind; [apply sendWithReplyAndBlock_answers |].
  destruct (dbus.sendWithReplyAndBlock w c listNamesMsg 100)
    as [listNamesReply | e]; cbn [TRY].
  - eapply answers_seq; [apply Message_destroy_answers |].
    eapply answers_seq; [apply Message_destroy_answers |].
    apply answers_ret.
  - eapply answers_seq; [apply Message_destroy_answers | apply answers_ret].
Qed.

Lemma retrieve_answers (c : dbus.Connection) (player : string) :
  answers media v (retrieve b c player) (dbus.retrieve w c player).
Proof.
  unfold retrieve, dbus.retrieve.
  eapply answers_bind; [apply newMethodCall_answers |].
  destruct (dbus.newMethodCall w _ _ _ _) as [msg | e]; [| apply answers_ret].
  cbn [TRY]. eapply answers_bind; [apply appendArgs_answers |].
  destruct (dbus.appendArgs w msg _) as [appended msg']. cbn [fst snd].
  destruct appended; cbn [negb].
  - eapply answers_bind; [apply sendWithReplyAndBlock_answers |].
    destruct (dbus.sendWithReplyAndBlock w c msg' 100) as [reply | e];
      cbn [TRY].
    + eapply answers_seq; [apply Message_destroy_answers |].
      eapply answers_seq; [apply Message_destroy_answers |].
      apply answers_ret.
    + eapply answers_seq; [apply Message_destroy_answers | apply answers_ret].
  - eapply answers_seq; [apply Message_destroy_answers | apply answers_ret].
Qed.

Lemma fetchNowPlaying_answers :
  answers media v (fetchNowPlaying b) (dbus.fetchNowPlaying w).
Proof.
  unfold fetchNowPlaying, dbus.fetchNowPlaying.
  eapply answers_bind; [apply busGet_answers |].
  destruct (dbus.busGet w dbus.DBUS_BUS_SESSION) as [c | e];
    [| apply answers_ret].
  cbn [TRY]. eapply answers_bind; [apply discover_answers |].
  destruct (dbus.discover w c) as [[player |] | e]; cbn [TRY].
  - eapply answers_bind; [apply retrieve_answers |].
    eapply answers_seq; [apply Connection_destroy_answers | apply answers_ret].
  - eapply answers_seq; [apply Connection_destroy_answers | apply answers_ret].
  - eapply answers_seq; [apply Connection_destroy_answers | apply answers_ret].
Qed.

End DBusCalls.

Section NativeRelated.

Import native.

Context {S V : Type} (media : S -> V).

Lemma answers_as_ret {A B : Type} (R : A -> B -> Prop) (v : V) (a : A) (b : B) :
  R a b -> answers_as R media v (ret a) b.
Proof. intros HR s Hs. now split. Qed.

Lemma answers_as_bind {A B C : Type} (R : B -> C -> Prop) (v : V)
      (m : Native S A) (k : A -> Native S B) (a : A) (c : C) :
  answers media v m a -> answers_as R media v (k a) c ->
  answers_as R media v (bind m k) c.
Proof.
  intros Hm Hk s Hs. unfold bind. destruct (Hm s Hs) as [Ha Hv].
  destruct (m s) as [a' s']. cbn [fst snd] in Ha, Hv. subst a'.
  now apply Hk.
Qed.

Lemma answers_bind_as {A B C : Type} (R : A -> C -> Prop) (v : V)
      (m : Native S A) (k : A -> Native S B) (c : C) (b : B) :
  answers_as R media v m c ->
  (forall a, R a c -> answers media v (k a) b) ->
  answers media v (bind m k) b.
Proof.
  intros Hm Hk s Hs. unfold bind. destruct (Hm s Hs) as [Ha Hv].
  destruct (m s) as [a' s']. cbn [fst snd] in Ha, Hv.
  now apply (Hk a' Ha).
Qed.

End NativeRelated.

Section ComCalls.

Import native npsm_calls.

Context {S V H : Type} (media : S -> V) (c : Com S H).
Hypothesis Hsteady : steady_com c media.
Variable s0 : S.

Let w : npsm.World := snapshot c s0.
Let v : V := media s0.

Lemma ConvertWStringToUTF8_answers (wstr : npsm.WString) :
  answers media v (ConvertWStringToUTF8 c wstr)
    (npsm.ConvertWStringToUTF8 w wstr).
Proof.
  destruct Hsteady as (_ & _ & _ & _ & _ & _ & _ & _ & _ & _ & _ & Hwide).
  unfold ConvertWStringToUTF8, npsm.ConvertWStringToUTF8,
    npsm.ConvertWStringToUTF8_traced.
  destruct wstr as [| u wstr]; [apply answers_ret |].
  eapply answers_bind; [apply steady_answers, Hwide |].
  change (npsm.WideCharToMultiByte w)
    with (fun x cch cb => fst (WideCharToMultiByte c x cch cb s0)).
  cbv beta.
  set (first := fst (WideCharToMultiByte c (u :: wstr) _ 0 s0)).
  destruct (npsm.wc_return first =? 0)%Z; [apply answers_ret |].
  eapply answers_bind; [apply steady_answers, Hwide |].
  destruct (npsm.wc_return _ =? 0)%Z; apply answers_ret.
Qed.

Lemma readProperty_answers (propStore : H) (key : npsm.PROPERTYKEY) :
  answers media v (readProperty c propStore key)
    (npsm.readProperty w (store_at c s0 propStore) key).
Proof.
  destruct Hsteady as (_ & _ & _ & _ & _ & _ & _ & _ & _ & Hget & _).
  unfold readProperty, npsm.readProperty.
  eapply answers_bind; [apply steady_answers, Hget |].
  cbn [npsm.GetValue store_at].
  destruct (fst (GetValue c propStore key s0)) as [hr pVar]. cbn [fst snd].
  destruct (npsm.SUCCEEDED hr && (npsm.vt pVar =? npsm.VT_LPWSTR)%Z);
    [| apply answers_ret].
  destruct (npsm.pwszVal pVar) as [wstr |]; [| apply answers_ret].
  eapply answers_bind; [apply ConvertWStringToUTF8_answers | apply answers_ret].
Qed.

Lemma readMediaData_answers (propStore : H) :
  answers media v (readMediaData c propStore)
    (npsm.readMediaData w (store_at c s0 propStore)).
Proof.
  destruct Hsteady as (_ & _ & _ & _ & _ & _ & _ & _ & _ & _ & Hclear & _).
  unfold readMediaData, npsm.readMediaData.
  eapply answers_bind; [apply readProperty_answers |].
  eapply answers_seq; [apply steady_done, Hclear |].
  eapply answers_bind; [apply readProperty_answers |].
  eapply answers_seq; [apply steady_done, Hclear |].
  eapply answers_bind; [apply readProperty_answers |].
  eapply answers_seq; [apply steady_done, Hclear | apply answers_ret].
Qed.

Lemma finish_at (answer : npsm.HRESULT * option H) :
  match answer_at c s0 answer with
  | (result, Some propStore) =>
      if npsm.FAILED result
      then ERR ApiUnavailable "Failed to get media object info"
      else Ok propStore
  | (_, None) => ERR ApiUnavailable "Failed to get media object info"
  end = result_at c s0 (finish answer).
Proof.
  destruct answer as [hr [propStore |]]; cbn; [| reflexivity].
  now destruct (npsm.FAILED hr).
Qed.

Lemma getPropertyStore_answers :
  answers_as (fun obtained r => r = result_at c s0 obtained) media v
    (getPropertyStore c) (npsm.getPropertyStore w).
Proof.
  destruct Hsteady
    as (Hcreate & Hcount & Hcurrent & Has & Hactivate & Has2 & Hinfo2 & Has1
        & Hinfo1 & _).
  unfold getPropertyStore, npsm.getPropertyStore.
  cbn [w snapshot npsm.CoCreateInstance npsm.get_Count npsm.get_CurrentSession
         npsm.As_INowPlayingSession npsm.ActivateMediaPlaybackDataSource
         npsm.As_IMediaPlaybackDataSource2 npsm.DataSource2_GetMediaObjectInfo
         npsm.As_IMediaPlaybackDataSource npsm.DataSource_GetMediaObjectInfo].
  eapply answers_as_bind; [apply steady_answers, Hcreate |].
  destruct (npsm.FAILED (fst (CoCreateInstance c s0)));
    [now apply answers_as_ret |].
  eapply answers_as_bind; [apply steady_answers, Hcount |].
  eapply answers_as_bind; [apply steady_answers, Hcurrent |].
  destruct (fst (get_CurrentSession c s0)) as [hr1 sessionUnknown].
  cbn [fst snd].
  destruct (npsm.FAILED hr1 || negb sessionUnknown);
    [now apply answers_as_ret |].
  eapply answers_as_bind; [apply steady_answers, Has |].
  destruct (npsm.FAILED (fst (As_INowPlayingSession c s0)));
    [now apply answers_as_ret |].
  eapply answers_as_bind; [apply steady_answers, Hactivate |].
  destruct (fst (ActivateMediaPlaybackDataSource c s0))
    as [hr2 dataSourceUnknown].
  cbn [fst snd].
  destruct (npsm.FAILED hr2 || negb dataSourceUnknown);
    [now apply answers_as_ret |].
  eapply answers_as_bind; [apply steady_answers, Has2 |].
  cbv zeta.
  destruct (npsm.SUCCEEDED (fst (As_IMediaPlaybackDataSource2 c s0))).
  - eapply answers_as_bind; [apply steady_answers, Hinfo2 |].
    apply answers_as_ret, finish_at.
  - eapply answers_as_bind; [apply steady_answers, Has1 |].
    destruct (npsm.FAILED (fst (As_IMediaPlaybackDataSource c s0)));
      [now apply answers_as_ret |].
    eapply answers_as_bind; [apply steady_answers, Hinfo1 |].
    apply answers_as_ret, finish_at.
Qed.

Lemma FetchNowPlaying_answers :
  answers media v (FetchNowPlaying c) (npsm.FetchNowPlaying w).
Proof.
  unfold FetchNowPlaying, npsm.FetchNowPlaying.
  eapply answers_bind_as; [apply getPropertyStore_answers |].
  intros obtained ->. destruct obtained as [propStore | e];
    cbn [result_at TRY]; [| apply answers_ret].
  eapply answers_bind; [apply readMediaData_answers | apply answers_ret].
Qed.

End ComCalls.

Section MacCalls.

Import native macos_calls.

Context {S V : Type} (media : S -> V) (m : Mac S).
Hypothesis Hsteady : steady_mac m media.
Variable s0 : S.

Let w : macos.World := snapshot m s0.
Let v : V := media s0.

Lemma isMediaControlAvailable_from_answers (paths : list string) :
  answers media v (isMediaControlAvailable_from m paths)
    (existsb (macos.access_X_OK w) paths).
Proof.
  destruct Hsteady as (_ & Haccess & _).
  induction paths as [| path paths IH]; [apply answers_ret |].
  cbn [isMediaControlAvailable_from existsb].
  eapply answers_bind; [apply steady_answers, Haccess |].
  change (macos.access_X_OK w path) with (fst (access_X_OK m path s0)).
  destruct (fst (access_X_OK m path s0)); [apply answers_ret | exact IH].
Qed.

Lemma getMediaControlPath_from_answers (paths : list string) :
  answers media v (getMediaControlPath_from m paths)
    (find (macos.access_X_OK w) paths).
Proof.
  destruct Hsteady as (_ & Haccess & _).
  induction paths as [| path paths IH]; [apply answers_ret |].
  cbn [getMediaControlPath_from find].
  eapply answers_bind; [apply steady_answers, Haccess |].
  change (macos.access_X_OK w path) with (fst (access_X_OK m path s0)).
  destruct (fst (access_X_OK m path s0)); [apply answers_ret | exact IH].
Qed.

Lemma fetchViaMediaControl_answers :
  answers media v (fetchViaMediaControl m) (macos.fetchViaMediaControl w).
Proof.
  destruct Hsteady as (_ & _ & Hpopen & _).
  unfold fetchViaMediaControl, macos.fetchViaMediaControl.
  eapply answers_bind; [apply getMediaControlPath_from_answers |].
  fold (macos.getMediaControlPath w).
  destruct (macos.getMediaControlPath w) as [path |]; [| apply answers_ret].
  eapply answers_bind; [apply steady_answers, Hpopen | apply answers_ret].
Qed.

Lemma fetchViaNativeApi_answers :
  answers media v (fetchViaNativeApi m) (macos.fetchViaNativeApi w).
Proof.
  destruct Hsteady as (_ & _ & _ & Hurl & Hbundle & Hrelease & Hsymbol & Hinfo).
  unfold fetchViaNativeApi, macos.fetchViaNativeApi.
  cbn [w snapshot macos.CFURLCreateWithFileSystemPath macos.CFBundleCreate
         macos.CFBundleGetFunctionPointerForName
         macos.MRMediaRemoteGetNowPlayingInfo].
  eapply answers_bind; [apply steady_answers, Hurl |].
  destruct (negb (fst (CFURLCreateWithFileSystemPath m s0)));
    [apply answers_ret |].
  eapply answers_bind; [apply steady_answers, Hbundle |].
  eapply answers_seq; [apply steady_done, Hrelease |].
  destruct (negb (fst (CFBundleCreate m s0))); [apply answers_ret |].
  eapply answers_bind; [apply steady_answers, Hsymbol |].
  destruct (negb (fst (CFBundleGetFunctionPointerForName m s0))).
  - eapply answers_seq; [apply steady_done, Hrelease | apply answers_ret].
  - eapply answers_bind; [apply steady_answers, Hinfo | apply answers_ret].
Qed.

Lemma fetchNowPlaying_answers_mac (restricted : option bool) :
  restricted = None
  \/ restricted = Some (macos.isMediaRemoteRestricted w) ->
  answers media v (fetchNowPlaying m restricted)
    (macos.fetchNowPlaying w, Some (macos.isMediaRemoteRestricted w)).
Proof.
  destruct Hsteady as (Hversion & _). intros Hcache.
  unfold fetchNowPlaying, macos.fetchNowPlaying.
  assert (Hprobe : answers media v (isMediaRemoteRestricted m restricted)
                     (macos.isMediaRemoteRestricted w,
                      Some (macos.isMediaRemoteRestricted w))).
  { unfold isMediaRemoteRestricted. destruct Hcache as [-> | ->].
    - eapply answers_bind; [apply steady_answers, Hversion | apply answers_ret].
    - apply answers_ret. }
  eapply answers_bind; [exact Hprobe |]. cbn [fst snd].
  destruct (macos.isMediaRemoteRestricted w).
  - eapply answers_bind; [apply isMediaControlAvailable_from_answers |].
    fold (macos.isMediaControlAvailable w).
    destruct (macos.isMediaControlAvailable w); [| apply answers_ret].
    eapply answers_bind; [apply fetchViaMediaControl_answers |].
    apply answers_ret.
  - eapply answers_bind; [apply fetchViaNativeApi_answers | apply answers_ret].
Qed.

Lemma process_twice :
  twice (fun state => media (snd state)) (process m) (macos.fetchNowPlaying w)
    (None, s0).
Proof.
  unfold twice, process. cbn [fst snd].
  destruct (fetchNowPlaying_answers_mac None (or_introl eq_refl) s0 eq_refl)
    as [H1 Hv1].
  destruct (fetchNowPlaying m None s0) as [[r1 cache1] s1].
  cbn [fst snd] in *. injection H1 as -> ->.
  destruct (fetchNowPlaying_answers_mac _ (or_intror eq_refl) s1 Hv1)
    as [H2 Hv2].
  destruct (fetchNowPlaying m _ s1) as [[r2 cache2] s2].
  cbn [fst snd] in *. injection H2 as -> ->. now repeat split.
Qed.

End MacCalls.

Section Consecutive.

Import native samples.

Lemma helper_found_on_record (w : macos.World) (e : DracError) :
  macos.fetchNowPlaying w = Some (Err e) ->
  message e
  <> "media-control CLI not found. Install via: brew install media-control".
Proof.
  unfold macos.fetchNowPlaying.
  destruct (macos.isMediaRemoteRestricted w).
  - destruct (macos.isMediaControlAvailable w) eqn:Hav;
      [| intros [= <-]; discriminate].
    apply available_path in Hav.
    unfold macos.fetchViaMediaControl.
    destruct (macos.getMediaControlPath w) as [path |]; [| now elim Hav].
    destruct (macos.popen w _); [| intros [= <-]; discriminate].
    destruct (_ || _); [intros [= <-]; discriminate |].
    destruct (macos.glz_read w _) as [parsed |];
      [| intros [= <-]; discriminate].
    destruct (empty (macos.mc_title parsed)); [intros [= <-] |]; discriminate.
  - unfold macos.fetchViaNativeApi.
    destruct (negb (macos.CFURLCreateWithFileSystemPath w));
      [intros [= <-]; discriminate |].
    destruct (negb (macos.CFBundleCreate w)); [intros [= <-]; discriminate |].
    destruct (negb (macos.CFBundleGetFunctionPointerForName w));
      [intros [= <-]; discriminate |].
    destruct (macos.MRMediaRemoteGetNowPlayingInfo w) as [[info |] |];
      [| intros [= <-]; discriminate | discriminate].
    rewrite handler_fields.
    destruct (macos.objectForKey info terms.titleKey); [| intros [= <-]];
      discriminate.
Qed.

(** C9: two calls of the fetch in a row return the same result when the
    native media state does not change between them, on each backend.  The
    native side has a state that every native call may change; when its
    calls are steady (their answers depend on the media state only, which
    they leave as it is), the first and the second call both return what
    the answers at the start determine, although the second call starts
    from another native state, and on macOS from the function-local
    static that the first call has set. *)
Theorem consecutive_fetches_equal
        {S V H : Type} (media : S -> V) (bus : dbus_calls.Bus S)
        (com : npsm_calls.Com S H) (mac : macos_calls.Mac S) (s0 : S) :
  (dbus_calls.steady_bus bus media ->
   twice media (dbus_calls.fetchNowPlaying bus)
     (dbus.fetchNowPlaying (dbus_calls.snapshot bus s0)) s0)
  /\ (npsm_calls.steady_com com media ->
      twice media (npsm_calls.FetchNowPlaying com)
        (npsm.FetchNowPlaying (npsm_calls.snapshot com s0)) s0)
  /\ (macos_calls.steady_mac mac media ->
      twice (fun state => media (snd state)) (macos_calls.process mac)
        (macos.fetchNowPlaying (macos_calls.snapshot mac s0)) (None, s0)).
Proof.
  split; [| split]; intros Hsteady.
  - apply answers_twice. now apply fetchNowPlaying_answers.
  - apply answers_twice. now apply FetchNowPlaying_answers.
  - now apply process_twice.
Qed.

Ltac steady_counted := repeat (split || intro); reflexivity.

Lemma consecutive_fetches_equal_witness :
  (twice counted.still (dbus_calls.fetchNowPlaying (counted.bus fooWorld))
     (Ok (mkMediaData (Some "Song") (Some "Band") (Some "Rec") (Some "Foo")))
     0
   /\ snd (dbus_calls.fetchNowPlaying (counted.bus fooWorld) 0) = 12)
  /\ twice counted.still
       (npsm_calls.FetchNowPlaying
          (counted.com
             (sessionWorld
                (npsm.S_OK,
                 Some (store (lpwstr "Song") (lpwstr "Band") missing)))))
       (Ok (mkMediaData (Some "Song") (Some "Band") None None)) 0
  /\ twice (fun state => counted.still (snd state))
       (macos_calls.process
          (counted.mac
             (helperWorld "{}"
                (fun _ =>
                   Some (macos.mkMediaControlOutput "Song" "Band" "" true)))))
       (Some (Ok (mkMediaData (Some "Song") (Some "Band") None None)))
       (None, 0).
Proof.
  pose proof
    (consecutive_fetches_equal counted.still (counted.bus fooWorld)
       (counted.com
          (sessionWorld
             (npsm.S_OK, Some (store (lpwstr "Song") (lpwstr "Band") missing))))
       (counted.mac
          (helperWorld "{}"
             (fun _ =>
                Some (macos.mkMediaControlOutput "Song" "Band" "" true))))
       0) as (Hbus & Hcom & Hmac).
  split; [split; [| reflexivity] |]; [| split].
  - apply Hbus. steady_counted.
  - apply Hcom. steady_counted.
  - apply Hmac. steady_counted.
Defined.

(** X20: when the native side is steady during the call, the macOS fetch
    never ends in the "media-control CLI not found" error of
    [fetchViaMediaControl]: its scan of the install paths finds the helper
    that the scan of [isMediaControlAvailable] has found.  The two scans
    are separate questions to [access], though: when the helper stops
    being executable between them, the fetch does end in that error. *)
Theorem fetchNowPlaying_helper_found :
  (forall (S V : Type) (media : S -> V) (mac : macos_calls.Mac S) (s0 : S)
          (e : DracError),
      macos_calls.steady_mac mac media ->
      fst (macos_calls.process mac (None, s0)) = Some (Err e) ->
      message e
      <> "media-control CLI not found. Install via: brew install media-control")
  /\ fst (macos_calls.process counted.vanishingHelper (None, 0))
     = Some (ERR ApiUnavailable
               "media-control CLI not found. Install via: brew install media-control").
Proof.
  split; [| reflexivity].
  intros S V media mac s0 e Hsteady Hrun.
  apply (helper_found_on_record (macos_calls.snapshot mac s0)).
  rewrite <- Hrun. symmetry.
  apply (process_twice media mac Hsteady s0).
Qed.

Lemma fetchNowPlaying_helper_found_witness :
  message (mkDracError NotFound "No media is currently playing")
  <> "media-control CLI not found. Install via: brew install media-control".
Proof.
  apply (proj1 fetchNowPlaying_helper_found nat unit counted.still
           (counted.mac (helperWorld "null" (fun _ => None))) 0).
  - steady_counted.
  - reflexivity.
Defined.

End Consecutive.
